(** * Conversation store and completion client of the OpenAI chat app

    A shallow embedding of [context/ChatContext.tsx] (the conversation
    store), [services/openai.ts] (the completion client) and the error
    handler of [sendMessage] in the chat screen, with the properties the
    specification states about them; then of the rest of the chat screen,
    of [context/AuthContext.tsx] and of the login screen, with properties
    read off the code. *)

From Stdlib Require Import ZArith NArith List String Ascii Bool Lia.
From Stdlib Require Import DecimalString DecimalZ.
From Stdlib.Floats Require Import SpecFloat.
From stdpp Require Import base decidable option list gmap.

Local Open Scope nat_scope.

(** ** JavaScript strings

    A JavaScript string is a sequence of UTF-16 code units; [length],
    [slice] and [includes] all count code units.  A code unit is kept as
    an [N] below 65536. *)

Module JsString.

Definition t : Type := list N.

(** A literal of ASCII characters, one code unit each. *)
Definition lit (s : string) : t :=
  map N_of_ascii (list_ascii_of_string s).

(** [s.slice(0, n)] for a non-negative [n]. *)
Definition slice0 (n : nat) (s : t) : t := take n s.

Fixpoint startsWith (s p : t) : bool :=
  match p, s with
  | [], _ => true
  | _ :: _, [] => false
  | a :: p', b :: s' => N.eqb a b && startsWith s' p'
  end.

(** [s.includes(p)]: [p] occurs at some offset of [s]. *)
Fixpoint includes (s p : t) : bool :=
  startsWith s p ||
  match s with
  | [] => false
  | _ :: s' => includes s' p
  end.

(** [z.toString()] for a number holding an integer of magnitude below
    1e21: the decimal digits, with a leading minus sign when negative. *)
Definition ofZ (z : Z) : t := lit (NilZero.string_of_int (Z.to_int z)).

End JsString.

Arguments JsString.lit s%_string.
Abbreviation jsstring := JsString.t.
Abbreviation js := JsString.lit.

(** ** The conversation store ([ChatContext.tsx]) *)

Inductive Role := user | assistant.

Inductive Detail := low | high | auto.

Inductive MessageContentPart :=
| text_part (text : jsstring)
| image_url_part (url : jsstring) (detail : option Detail).

Inductive MessageContent :=
| content_string (s : jsstring)
| content_parts (parts : list MessageContentPart).

Record Message := mkMessage {
  m_id : jsstring;
  m_role : Role;
  m_content : MessageContent
}.

Record Conversation := mkConversation {
  c_id : jsstring;
  c_title : jsstring;
  c_messages : list Message;
  c_model : jsstring
}.

(** The three [useState] cells of [ChatProvider]. *)
Record Store := mkStore {
  conversations : list Conversation;
  currentConversation : option Conversation;
  selectedModel : jsstring
}.

Definition initialStore : Store :=
  {| conversations := [];
     currentConversation := None;
     selectedModel := js "gpt-4o-mini" |}.

#[global] Instance Role_eq_dec : EqDecision Role.
Proof. solve_decision. Defined.

(** [prev.map((c) => (c.id === updated.id ? updated : c))] *)
Definition replaceById (updated : Conversation) (prev : list Conversation)
  : list Conversation :=
  map (fun c => if decide (c_id c = c_id updated) then updated else c) prev.

(** [message.content.find((part) => part.type === "text")] *)
Fixpoint findTextPart (parts : list MessageContentPart) : option jsstring :=
  match parts with
  | [] => None
  | text_part t :: _ => Some t
  | image_url_part _ _ :: rest => findTextPart rest
  end.

(** The [messageText] local of [addMessage]. *)
Definition messageText (message : Message) : jsstring :=
  match m_content message with
  | content_string s => s
  | content_parts parts =>
      match findTextPart parts with
      | Some t => t
      | None => js "Image"
      end
  end.

(** [messageText.slice(0, 30) + (messageText.length > 30 ? "..." : "")] *)
Definition deriveTitle (text : jsstring) : jsstring :=
  JsString.slice0 30 text ++
  (if decide (30 < length text) then js "..." else []).

(** Every operation of the provider is a closure over the values of the
    render that created it ([snap]); what it writes goes through the state
    setters.  [setConversations] is always given an updater function, which
    React applies to the latest collection ([prev]); [setCurrentConversation]
    and [setSelectedModel] are given plain values.  Each operation below is
    therefore a function of both stores and returns the store after the
    writes. *)

Definition createConversation (now : Z) (snap prev : Store) : Store :=
  let newConv :=
    {| c_id := JsString.ofZ now;
       c_title := js "New Chat";
       c_messages := [];
       c_model := selectedModel snap |} in
  {| conversations := newConv :: conversations prev;
     currentConversation := Some newConv;
     selectedModel := selectedModel prev |}.

Definition addMessage (message : Message) (snap prev : Store) : Store :=
  match currentConversation snap with
  | None => prev
  | Some cur =>
      let updated :=
        {| c_id := c_id cur;
           c_title :=
             if decide (length (c_messages cur) = 0 ∧ m_role message = user)
             then deriveTitle (messageText message)
             else c_title cur;
           c_messages := c_messages cur ++ [message];
           c_model := c_model cur |} in
      {| conversations := replaceById updated (conversations prev);
         currentConversation := Some updated;
         selectedModel := selectedModel prev |}
  end.

(** The [messages] array of [updateLastMessage] after the guarded
    assignment to its last index. *)
Definition patchLast (content : MessageContent) (messages : list Message)
  : list Message :=
  if decide (0 < length messages) then
    match messages !! (length messages - 1) with
    | Some lastMsg =>
        <[length messages - 1 :=
            {| m_id := m_id lastMsg;
               m_role := m_role lastMsg;
               m_content := content |}]> messages
    | None => messages
    end
  else messages.

Definition updateLastMessage (content : MessageContent) (snap prev : Store)
  : Store :=
  match currentConversation snap with
  | None => prev
  | Some cur =>
      let updated :=
        {| c_id := c_id cur;
           c_title := c_title cur;
           c_messages := patchLast content (c_messages cur);
           c_model := c_model cur |} in
      {| conversations := replaceById updated (conversations prev);
         currentConversation := Some updated;
         selectedModel := selectedModel prev |}
  end.

(** [conversations.find((c) => c.id === id)] *)
Definition findById (id : jsstring) (cs : list Conversation)
  : option Conversation :=
  List.find (fun c => bool_decide (c_id c = id)) cs.

Definition selectConversation (id : jsstring) (snap prev : Store) : Store :=
  match findById id (conversations snap) with
  | Some conv =>
      {| conversations := conversations prev;
         currentConversation := Some conv;
         selectedModel := c_model conv |}
  | None => prev
  end.

(** [currentConversation?.id === id] *)
Definition currentHasId (id : jsstring) (cur : option Conversation) : bool :=
  match cur with
  | Some c => bool_decide (c_id c = id)
  | None => false
  end.

Definition deleteConversation (id : jsstring) (snap prev : Store) : Store :=
  {| conversations :=
       List.filter (fun c => negb (bool_decide (c_id c = id)))
                   (conversations prev);
     currentConversation :=
       if currentHasId id (currentConversation snap)
       then None
       else currentConversation prev;
     selectedModel := selectedModel prev |}.

Definition clearCurrentConversation (snap prev : Store) : Store :=
  match currentConversation snap with
  | None => prev
  | Some cur =>
      let clearedConversation :=
        {| c_id := c_id cur;
           c_title := js "New Chat";
           c_messages := [];
           c_model := c_model cur |} in
      {| conversations := replaceById clearedConversation (conversations prev);
         currentConversation := Some clearedConversation;
         selectedModel := selectedModel prev |}
  end.

Definition setSelectedModel (model : jsstring) (prev : Store) : Store :=
  {| conversations := conversations prev;
     currentConversation := currentConversation prev;
     selectedModel := model |}.

(** *** The store as a state machine

    [step] runs an operation through the closure of the latest render: the
    snapshot the operation reads is the store it updates.  This is how the
    calls go when each is made after the render that followed the call
    before it.  A call kept from an earlier render reads that earlier
    store instead; such calls are written with the operations themselves,
    the two stores apart. *)

Inductive Op :=
| CreateConversation (now : Z)
| AddMessage (message : Message)
| UpdateLastMessage (content : MessageContent)
| SelectConversation (id : jsstring)
| DeleteConversation (id : jsstring)
| ClearCurrentConversation
| SetSelectedModel (model : jsstring).

Definition step (st : Store) (op : Op) : Store :=
  match op with
  | CreateConversation now => createConversation now st st
  | AddMessage message => addMessage message st st
  | UpdateLastMessage content => updateLastMessage content st st
  | SelectConversation id => selectConversation id st st
  | DeleteConversation id => deleteConversation id st st
  | ClearCurrentConversation => clearCurrentConversation st st
  | SetSelectedModel model => setSelectedModel model st
  end.

Definition run (ops : list Op) (st : Store) : Store := fold_left step ops st.

(** ** JavaScript values and JSON *)

Module Js.

(** A number is an IEEE 754 double. *)
#[warnings="-register-all"] Inductive value :=
| undefined
| null
| boolean (b : bool)
| number (x : spec_float)
| str (s : jsstring)
| array (items : list value)
| object (props : list (jsstring * value)).

(** The double holding the integer [z]. *)
Definition ofInt (z : Z) : spec_float := binary_normalize 53 1024 z 0 false.

Definition isZero (x : spec_float) : bool :=
  match x with S754_zero _ => true | _ => false end.

Definition isNaN (x : spec_float) : bool :=
  match x with S754_nan => true | _ => false end.

Definition isInfinite (x : spec_float) : bool :=
  match x with S754_infinity _ => true | _ => false end.

(** ToBoolean: what [!v], [v || w] and [if (v)] test. *)
Definition truthy (v : value) : bool :=
  match v with
  | undefined | null => false
  | boolean b => b
  | number x => negb (isZero x || isNaN x)
  | str s => negb (bool_decide (s = []))
  | array _ | object _ => true
  end.

(** [a || b] on operands without effects. *)
Definition or (a b : value) : value := if truthy a then a else b.

(** The value an object holds under [key]; a name that occurs twice in
    parsed JSON text stands for its last occurrence. *)
Fixpoint lookupLast (key : jsstring) (props : list (jsstring * value))
  : option value :=
  match props with
  | [] => None
  | (k, v) :: rest =>
      match lookupLast key rest with
      | Some v' => Some v'
      | None => if decide (k = key) then Some v else None
      end
  end.

(** [v?.key], for the keys read below ("error" and "message"), which no
    built-in prototype defines: [undefined] unless [v] is an object with
    that property. *)
Definition optGet (v : value) (key : jsstring) : value :=
  match v with
  | object props => default undefined (lookupLast key props)
  | _ => undefined
  end.

Fixpoint join (sep : jsstring) (l : list jsstring) : jsstring :=
  match l with
  | [] => []
  | [x] => x
  | x :: rest => x ++ sep ++ join sep rest
  end.

(** ToString, as [new Error(v)] and a template literal apply it;
    [numberToString] is the platform's rendering of a double, and [None]
    is the [TypeError] of a value that has no primitive form.  An object
    built by [JSON.parse] is rendered by [Object.prototype.toString] unless
    it has a member named "toString" of its own, which is never callable
    and leaves it without a primitive form; an array is rendered item by
    item, [null] and [undefined] as nothing. *)
Fixpoint toString (numberToString : spec_float → jsstring) (v : value)
  : option jsstring :=
  match v with
  | undefined => Some (js "undefined")
  | null => Some (js "null")
  | boolean true => Some (js "true")
  | boolean false => Some (js "false")
  | number x => Some (numberToString x)
  | str s => Some s
  | array items =>
      match
        (fix each (l : list value) : option (list jsstring) :=
           match l with
           | [] => Some []
           | item :: rest =>
               match
                 match item with
                 | undefined | null => Some []
                 | _ => toString numberToString item
                 end
               with
               | Some s =>
                   match each rest with
                   | Some ss => Some (s :: ss)
                   | None => None
                   end
               | None => None
               end
           end) items
      with
      | Some pieces => Some (join (js ",") pieces)
      | None => None
      end
  | object props =>
      match lookupLast (js "toString") props with
      | Some _ => None
      | None => Some (js "[object Object]")
      end
  end.

End Js.

Module Json.

(** The syntax tree of a JSON text.  A number literal is identified with
    the double it denotes, which is never NaN or infinite. *)
#[warnings="-register-all"] Inductive t :=
| null
| boolean (b : bool)
| number (x : spec_float)
| str (s : jsstring)
| array (items : list t)
| object (members : list (jsstring * t)).

(** The value [JSON.parse] builds from a text, members in text order. *)
Fixpoint parse (j : t) : Js.value :=
  match j with
  | null => Js.null
  | boolean b => Js.boolean b
  | number x => Js.number x
  | str s => Js.str s
  | array items => Js.array (map parse items)
  | object members =>
      Js.object (map (fun '(k, m) => (k, parse m)) members)
  end.

(** The text [JSON.stringify] writes for a value: [None] for [undefined];
    a property whose value is [undefined] is left out, an [undefined]
    array item and a NaN or infinite number are written [null], and
    negative zero is written [0]. *)
Fixpoint stringify (v : Js.value) : option t :=
  match v with
  | Js.undefined => None
  | Js.null => Some null
  | Js.boolean b => Some (boolean b)
  | Js.number x =>
      Some (match x with
            | S754_finite _ _ _ => number x
            | S754_zero _ => number (S754_zero false)
            | S754_infinity _ | S754_nan => null
            end)
  | Js.str s => Some (str s)
  | Js.array items =>
      Some (array (map (fun item => default null (stringify item)) items))
  | Js.object props =>
      Some (object
              (omap (fun '(k, p) =>
                       match stringify p with
                       | Some j => Some (k, j)
                       | None => None
                       end) props))
  end.

(** The member names of an object text, in order. *)
Definition fieldNames (j : option t) : list jsstring :=
  match j with
  | Some (object members) => map fst members
  | _ => []
  end.

(** The member [key] of an object text. *)
Definition field (key : jsstring) (j : option t) : option t :=
  match j with
  | Some (object members) =>
      snd <$> List.find (fun m => bool_decide (fst m = key)) members
  | _ => None
  end.

End Json.

(** ** The network *)

(** An [Error]; only its message is ever read. *)
Record JsError := newError { e_message : jsstring }.

(** How an awaited promise settles. *)
Inductive Settled (A : Type) :=
| Fulfilled (a : A)
| Rejected (reason : JsError).

Arguments Fulfilled {A} a.
Arguments Rejected {A} reason.

Record Request := mkRequest {
  url : jsstring;
  method : jsstring;
  headers : list (jsstring * jsstring);
  body : option Json.t
}.

(** A response: [r_json] is how [response.json()] settles, rejected when the
    body is not JSON text. *)
Record Response := mkResponse {
  status : N;
  statusText : jsstring;
  r_json : Settled Json.t
}.

(** [response.ok] *)
Definition ok (r : Response) : bool :=
  ((200 <=? status r) && (status r <=? 299))%N.

(** ** The completion client ([services/openai.ts]) *)

Module OpenAI.

Inductive MessageRole := system | user | assistant.

(** [ChatMessageContentPart] has the shape of the store's
    [MessageContentPart], whose values the chat screen passes in. *)
Record ChatMessage := mkChatMessage {
  role : MessageRole;
  content : MessageContent
}.

Record ChatCompletionOptions := mkOptions {
  model : jsstring;
  messages : list ChatMessage;
  max_tokens : option spec_float;
  temperature : option spec_float;
  top_p : option spec_float;
  frequency_penalty : option spec_float;
  presence_penalty : option spec_float;
  stream : option bool
}.

Record OpenAIClient := mkClient {
  apiKey : jsstring;
  baseURL : jsstring
}.

(** [new OpenAIClient(apiKey)], which is also [createOpenAI(apiKey)]. *)
Definition createOpenAI (key : jsstring) : OpenAIClient :=
  {| apiKey := key; baseURL := js "https://api.openai.com/v1" |}.

(** The JavaScript values of the typed request data; an optional property
    that is absent reads as [undefined]. *)
Definition optNumber (o : option spec_float) : Js.value :=
  match o with
  | Some x => Js.number x
  | None => Js.undefined
  end.

Definition roleValue (r : MessageRole) : Js.value :=
  Js.str match r with
         | system => js "system"
         | user => js "user"
         | assistant => js "assistant"
         end.

Definition detailValue (d : option Detail) : Js.value :=
  match d with
  | Some low => Js.str (js "low")
  | Some high => Js.str (js "high")
  | Some auto => Js.str (js "auto")
  | None => Js.undefined
  end.

Definition partValue (p : MessageContentPart) : Js.value :=
  match p with
  | text_part text =>
      Js.object [(js "type", Js.str (js "text"));
                 (js "text", Js.str text)]
  | image_url_part u d =>
      Js.object [(js "type", Js.str (js "image_url"));
                 (js "image_url",
                  Js.object [(js "url", Js.str u);
                             (js "detail", detailValue d)])]
  end.

Definition contentValue (c : MessageContent) : Js.value :=
  match c with
  | content_string s => Js.str s
  | content_parts parts => Js.array (map partValue parts)
  end.

Definition messageValue (m : ChatMessage) : Js.value :=
  Js.object [(js "role", roleValue (role m));
             (js "content", contentValue (content m))].

(** The object literal handed to [JSON.stringify] in
    [chat.completions.create]. *)
Definition requestBody (options : ChatCompletionOptions) : Js.value :=
  Js.object
    [(js "model", Js.str (model options));
     (js "messages", Js.array (map messageValue (messages options)));
     (js "max_tokens",
      Js.or (optNumber (max_tokens options)) (Js.number (Js.ofInt 4096)));
     (js "temperature", optNumber (temperature options));
     (js "top_p", optNumber (top_p options));
     (js "frequency_penalty", optNumber (frequency_penalty options));
     (js "presence_penalty", optNumber (presence_penalty options))].

Definition bearer (this : OpenAIClient) : jsstring :=
  js "Bearer " ++ apiKey this.

(** The request [chat.completions.create] hands to [fetch]. *)
Definition completionsRequest (this : OpenAIClient)
           (options : ChatCompletionOptions) : Request :=
  {| url := baseURL this ++ js "/chat/completions";
     method := js "POST";
     headers := [(js "Content-Type", js "application/json");
                 (js "Authorization", bearer this)];
     body := Json.stringify (requestBody options) |}.

(** The request [models.list] hands to [fetch]. *)
Definition modelsRequest (this : OpenAIClient) : Request :=
  {| url := baseURL this ++ js "/models";
     method := js "GET";
     headers := [(js "Authorization", bearer this)];
     body := None |}.

Section Calls.

(** The network, as the outcome of each request, and the platform: its
    rendering of doubles and the [TypeError] it raises for a value without
    a primitive form. *)
Variable fetch : Request → Settled Response.
Variable numberToString : spec_float → jsstring.
Variable toStringError : JsError.

(** [response.json().catch(() => ({}))] *)
Definition errorData (response : Response) : Js.value :=
  match r_json response with
  | Fulfilled j => Json.parse j
  | Rejected _ => Js.object []
  end.

(** [errorData?.error?.message || `HTTP ${status}: ${statusText}`] *)
Definition errorMessage (response : Response) : Js.value :=
  Js.or (Js.optGet (Js.optGet (errorData response) (js "error"))
                   (js "message"))
        (Js.str (js "HTTP " ++ JsString.ofZ (Z.of_N (status response))
                 ++ js ": " ++ statusText response)).

Definition chat_completions_create (this : OpenAIClient)
           (options : ChatCompletionOptions) : Settled Js.value :=
  match fetch (completionsRequest this options) with
  | Rejected reason => Rejected reason
  | Fulfilled response =>
      if negb (ok response) then
        match Js.toString numberToString (errorMessage response) with
        | Some message => Rejected (newError message)
        | None => Rejected toStringError
        end
      else
        match r_json response with
        | Fulfilled j => Fulfilled (Json.parse j)
        | Rejected reason => Rejected reason
        end
  end.

Definition models_list (this : OpenAIClient) : Settled Js.value :=
  match fetch (modelsRequest this) with
  | Rejected reason => Rejected reason
  | Fulfilled response =>
      if negb (ok response) then
        Rejected (newError (js "Failed to fetch models"))
      else
        match r_json response with
        | Fulfilled j => Fulfilled (Json.parse j)
        | Rejected reason => Rejected reason
        end
  end.

(** The [try]/[catch] of [validateApiKey]: whatever [models.list]
    rejects with is caught. *)
Definition validateApiKey (key : jsstring) : Settled bool :=
  match models_list (createOpenAI key) with
  | Fulfilled _ => Fulfilled true
  | Rejected _ => Fulfilled false
  end.

End Calls.

End OpenAI.

(** ** The error handler of [sendMessage] (chat screen) *)

Module ChatScreen.

(** U+26A0 U+FE0F, the warning sign of the error reply. *)
Definition warningSign : jsstring := [9888%N; 65039%N].

Definition quote : jsstring := [34%N].

(** The [errorMessage] the [catch] block settles on. *)
Definition userFacingError (selectedModel : jsstring) (error : JsError)
  : jsstring :=
  let message := e_message error in
  if JsString.includes message (js "401")
     || JsString.includes message (js "Unauthorized")
  then js "Invalid API key. Please check your API key and try again."
  else if JsString.includes message (js "429")
  then js "Rate limit exceeded. Please wait a moment and try again."
  else if JsString.includes message (js "500")
          || JsString.includes message (js "502")
          || JsString.includes message (js "503")
  then js "OpenAI server error. Please try again later."
  else if JsString.includes message (js "model")
  then js "Model " ++ quote ++ selectedModel ++ quote
       ++ js " is not available. Please select a different model."
  else if negb (bool_decide (message = []))
  then message
  else js "Something went wrong. Please try again.".

(** The message the [catch] block passes to [addMessage]. *)
Definition errorReply (selectedModel : jsstring) (now : Z) (error : JsError)
  : Message :=
  {| m_id := JsString.ofZ (now + 1);
     m_role := assistant;
     m_content :=
       content_string
         (warningSign ++ js " Error: "
          ++ userFacingError selectedModel error) |}.

End ChatScreen.
(** ** Store properties: vocabulary

    *** What the specification says a title is

    The text content of a message is its string content or the text of the
    first text part of its part list; a title is that text cut to 30
    characters, with an ellipsis when something was cut, or "Image" when
    there is no text part. *)

Definition partText (p : MessageContentPart) : option jsstring :=
  match p with
  | text_part t => Some t
  | image_url_part _ _ => None
  end.

Definition textContent (m : Message) : option jsstring :=
  match m_content m with
  | content_string s => Some s
  | content_parts parts => head (omap partText parts)
  end.

Definition truncated30 (s : jsstring) : jsstring :=
  if decide (length s ≤ 30) then s else take 30 s ++ js "...".

Definition titleOf (m : Message) : jsstring :=
  match textContent m with
  | Some s => truncated30 s
  | None => js "Image"
  end.

(** The title the specification's testable property promises after the
    messages [msgs] were added to a fresh conversation: the one of the first
    user-authored message, the title being left alone otherwise. *)
Definition titleOfFirstUserMessage (msgs : list Message) : jsstring :=
  match List.find (fun m => bool_decide (m_role m = user)) msgs with
  | Some m => titleOf m
  | None => js "New Chat"
  end.

(** The title the guard of [addMessage] yields: only the first message
    overall is looked at. *)
Definition titleOfFirstMessage (msgs : list Message) : jsstring :=
  match msgs with
  | m :: _ => if decide (m_role m = user) then titleOf m else js "New Chat"
  | [] => js "New Chat"
  end.

Definition isFresh (c : Conversation) : Prop :=
  c_title c = js "New Chat" ∧ c_messages c = [].

(** The testable property as the specification words it: after the
    messages [msgs] were added to a fresh current conversation, its title
    is the one derived from the first user-authored message among them. *)
Definition titleFollowsFirstUserMessage (st : Store) (msgs : list Message)
  : Prop :=
  ∀ cur, currentConversation st = Some cur → isFresh cur →
    c_title <$> currentConversation (run (map AddMessage msgs) st)
    = Some (titleOfFirstUserMessage msgs).

Definition assistantHello : Message :=
  {| m_id := js "1"; m_role := assistant;
     m_content := content_string (js "Hello") |}.

Definition userHi : Message :=
  {| m_id := js "2"; m_role := user;
     m_content := content_string (js "Hi") |}.

Definition userLongQuestion : Message :=
  {| m_id := js "3"; m_role := user;
     m_content :=
       content_parts
         [image_url_part (js "data:image/jpeg;base64,AAAA") (Some high);
          text_part (js "Which of the five options is the right answer?")] |}.

(** *** Identifiers *)

Definition ids (st : Store) : list jsstring := map c_id (conversations st).

(** The clock readings of the [createConversation] calls of a trace. *)
Fixpoint creationTimes (ops : list Op) : list Z :=
  match ops with
  | [] => []
  | CreateConversation now :: rest => now :: creationTimes rest
  | _ :: rest => creationTimes rest
  end.

Definition sampleTrace : list Op :=
  [CreateConversation 1700000000000;
   AddMessage userHi;
   AddMessage assistantHello;
   CreateConversation 1700000000001;
   SelectConversation (js "1700000000000");
   UpdateLastMessage (content_string (js "Hello again"));
   ClearCurrentConversation;
   DeleteConversation (js "1700000000001")].

(** *** The current conversation and the collection *)

Definition currentInCollection (st : Store) : Prop :=
  ∀ cur, currentConversation st = Some cur → cur ∈ conversations st.

(** ** Client properties: vocabulary and sample data *)

Definition sevenFields : list jsstring :=
  [js "model"; js "messages"; js "max_tokens"; js "temperature"; js "top_p";
   js "frequency_penalty"; js "presence_penalty"].

(** The name of an optional request field, when the options provide it. *)
Definition whenProvided {A} (name : jsstring) (o : option A) : list jsstring :=
  match o with
  | Some _ => [name]
  | None => []
  end.

(** The JSON text sent for [options]. *)
Definition sentBody (key : jsstring) (options : OpenAI.ChatCompletionOptions)
  : option Json.t :=
  body (OpenAI.completionsRequest (OpenAI.createOpenAI key) options).

(** The options the chat screen passes: a model and messages only. *)
Definition screenOptions : OpenAI.ChatCompletionOptions :=
  {| OpenAI.model := js "gpt-4o-mini";
     OpenAI.messages :=
       [{| OpenAI.role := OpenAI.system;
           OpenAI.content := content_string (js "Answer with a letter.") |};
        {| OpenAI.role := OpenAI.user;
           OpenAI.content := content_parts [text_part (js "What is 2+2?")] |}];
     OpenAI.max_tokens := None;
     OpenAI.temperature := None;
     OpenAI.top_p := None;
     OpenAI.frequency_penalty := None;
     OpenAI.presence_penalty := None;
     OpenAI.stream := None |}.

Definition withMaxTokens (x : spec_float) : OpenAI.ChatCompletionOptions :=
  {| OpenAI.model := js "gpt-4o";
     OpenAI.messages := [];
     OpenAI.max_tokens := Some x;
     OpenAI.temperature := Some (Js.ofInt 1);
     OpenAI.top_p := None;
     OpenAI.frequency_penalty := None;
     OpenAI.presence_penalty := None;
     OpenAI.stream := Some true |}.

(** The request body carries every provided non-zero [max_tokens] as it
    is. *)
Definition carriesGivenMaxTokens (options : OpenAI.ChatCompletionOptions)
  : Prop :=
  ∀ key x, OpenAI.max_tokens options = Some x → Js.isZero x = false →
    Json.field (js "max_tokens") (sentBody key options)
    = Some (Json.number x).

(** A 401 response whose body is
    [{"error":{"message":"Incorrect API key"}}]. *)
Definition incorrectKeyResponse : Response :=
  {| status := 401;
     statusText := js "";
     r_json :=
       Fulfilled
         (Json.object
            [(js "error",
              Json.object
                [(js "message", Json.str (js "Incorrect API key"))])]) |}.

(** A 401 response without a JSON body. *)
Definition bareUnauthorizedResponse : Response :=
  {| status := 401;
     statusText := js "Unauthorized";
     r_json := Rejected (newError (js "JSON Parse error: Unexpected EOF")) |}.

(** A rendering of doubles that is right for those holding an integer of
    magnitude below 1e21: the mantissa shifted by the exponent. *)
Definition integersOnly (x : spec_float) : jsstring :=
  match x with
  | S754_zero _ => js "0"
  | S754_nan => js "NaN"
  | S754_infinity false => js "Infinity"
  | S754_infinity true => js "-Infinity"
  | S754_finite s m e =>
      JsString.ofZ ((if s then -1 else 1) * Z.shiftl (Z.pos m) e)
  end.

(** The [TypeError] an engine raises for a value without a primitive
    form, for the examples. *)
Definition sampleToStringError : JsError :=
  newError (js "Cannot convert object to primitive value").

(** The object text [j] has the members [names] and no others. *)
Definition hasExactlyFields (names : list jsstring) (j : option Json.t)
  : Prop :=
  ∀ f, f ∈ Json.fieldNames j ↔ f ∈ names.

(** A network that answers every request with [response]. *)
Definition alwaysResponds (response : Response) : Request → Settled Response :=
  fun _ => Fulfilled response.

(** ** More string operations *)

Module JsText.

(** The code units ECMAScript counts as white space or as a line
    terminator: what [trim] strips. *)
Definition isWhiteSpace (c : N) : bool :=
  ((c =? 9) || (c =? 10) || (c =? 11) || (c =? 12) || (c =? 13)
   || (c =? 32) || (c =? 160) || (c =? 5760)
   || ((8192 <=? c) && (c <=? 8202))
   || (c =? 8232) || (c =? 8233) || (c =? 8239) || (c =? 8287)
   || (c =? 12288) || (c =? 65279))%N.

Fixpoint trimStart (s : jsstring) : jsstring :=
  match s with
  | [] => []
  | c :: rest => if isWhiteSpace c then trimStart rest else s
  end.

Definition trimEnd (s : jsstring) : jsstring := rev (trimStart (rev s)).

(** [s.trim()] *)
Definition trim (s : jsstring) : jsstring := trimEnd (trimStart s).

(** [!s.trim()] *)
Definition isBlank (s : jsstring) : bool := bool_decide (trim s = []).

(** [s.split(sep)] for a separator of one code unit: never empty, one
    more piece than there are separators. *)
Fixpoint split (sep : N) (s : jsstring) : list jsstring :=
  match s with
  | [] => [[]]
  | c :: rest =>
      if (c =? sep)%N then [] :: split sep rest
      else match split sep rest with
           | piece :: pieces => (c :: piece) :: pieces
           | [] => [[c]]
           end
  end.

Definition lineFeed : N := 10.

End JsText.

(** ** More of the chat screen *)

Module Answers.

(** [msg.role === "assistant" && typeof msg.content === "string"] *)
Definition isTextAnswer (msg : Message) : bool :=
  match m_role msg, m_content msg with
  | assistant, content_string _ => true
  | _, _ => false
  end.

(** [(msg.content as string).split("\n").filter((line) => line.trim() !== "")]
    for a message that passed the filter. *)
Definition answerLines (msg : Message) : list jsstring :=
  match m_content msg with
  | content_string s =>
      List.filter (fun line => negb (JsText.isBlank line))
                  (JsText.split JsText.lineFeed s)
  | content_parts _ => []
  end.

(** The [derivedAnswers] memo of the chat screen. *)
Definition derivedAnswers (cur : option Conversation) : list jsstring :=
  match cur with
  | None => []
  | Some conv =>
      rev (flat_map answerLines (List.filter isTextAnswer (c_messages conv)))
  end.

End Answers.

Module Images.

(** The updater of [removeImage]: [updated.splice(index, 1)] on a copy, for
    the non-negative index of a rendered preview. *)
Definition removeImage (index : nat) (prev : list jsstring) : list jsstring :=
  delete index prev.

End Images.

Module Send.

(** The state of the chat screen that [sendMessage] reads and writes. *)
Record Screen := mkScreen {
  input : jsstring;
  selectedImages : list jsstring;
  isLoading : bool
}.

(** [!apiKey]: no key, or an empty one. *)
Definition noKey (apiKey : option jsstring) : bool :=
  match apiKey with
  | None => true
  | Some k => bool_decide (k = [])
  end.

(** The [contentParts] array: the trimmed text when there is any, then one
    part per selected image. *)
Definition contentParts (scr : Screen) : list MessageContentPart :=
  (if JsText.isBlank (input scr) then []
   else [text_part (JsText.trim (input scr))])
  ++ map (fun imageUrl => image_url_part imageUrl (Some high))
         (selectedImages scr).

(** The first line of [sendMessage]: nothing to send, or no key. *)
Definition refuses (apiKey : option jsstring) (scr : Screen) : bool :=
  (JsText.isBlank (input scr) && bool_decide (selectedImages scr = []))
  || noKey apiKey.

Definition userMessage (now : Z) (scr : Screen) : Message :=
  {| m_id := JsString.ofZ now;
     m_role := user;
     m_content := content_parts (contentParts scr) |}.

(** What [sendMessage] does before the request is issued; [snap] is the
    store of the render whose [addMessage] the callback holds. *)
Definition press (apiKey : option jsstring) (now : Z) (scr : Screen)
           (snap prev : Store) : Screen * Store :=
  if refuses apiKey scr then (scr, prev)
  else ({| input := []; selectedImages := []; isLoading := true |},
        addMessage (userMessage now scr) snap prev).

Definition systemPrompt : jsstring :=
  js "One or more images containing one problem will be uploaded. These are multiple choice questions with five options, A, B, C, D, E. "
  ++ js "Solve the problem internally, and get to an answer (ex. B). Then independently solve the problem once more, and get an answer (ex. B). "
  ++ js "If the answers matches both times, this is the final answer and you only respond with the answer. For example, if I uploaded the question number 21, and you reach the final answer B, you respond: '21 - B'. NO explanation needed. "
  ++ js "If your independently reached answers on both instances don't match, try to resolve the conflict and then reach a final answer. "
  ++ js "And then display the answer in the same way, like '21 - C'. NO explanation needed.".

(** The options of the one request of a send: the system prompt and the
    content just built. *)
Definition completionOptions (selectedModel : jsstring)
           (parts : list MessageContentPart) : OpenAI.ChatCompletionOptions :=
  {| OpenAI.model := selectedModel;
     OpenAI.messages :=
       [{| OpenAI.role := OpenAI.system;
           OpenAI.content := content_string systemPrompt |};
        {| OpenAI.role := OpenAI.user;
           OpenAI.content := content_parts parts |}];
     OpenAI.max_tokens := None;
     OpenAI.temperature := None;
     OpenAI.top_p := None;
     OpenAI.frequency_penalty := None;
     OpenAI.presence_penalty := None;
     OpenAI.stream := None |}.

(** The places of a send where the engine can raise a [TypeError]: the
    property reads of the success path, whose object may be [null] or
    [undefined], the call of a [trim] that is not there, and the two
    conversions to a string, of the token count in the template literal
    and of the error message in the client. *)
Inductive Site :=
| usage_of_completion
| first_of_choices
| message_of_choice
| content_of_message
| trim_of_answer
| text_of_tokens
| text_of_error_message.

(** [v.key], for the keys read below ("usage", "choices", "message",
    "content"), which no built-in prototype defines; [None] is the
    [TypeError] of reading a property of [null] or [undefined]. *)
Definition get (v : Js.value) (key : jsstring) : option Js.value :=
  match v with
  | Js.undefined | Js.null => None
  | Js.object props => Some (default Js.undefined (Js.lookupLast key props))
  | _ => Some Js.undefined
  end.

(** [v[0]] *)
Definition first (v : Js.value) : option Js.value :=
  match v with
  | Js.undefined | Js.null => None
  | Js.array items => Some (default Js.undefined (head items))
  | Js.str (c :: _) => Some (Js.str [c])
  | Js.object props =>
      Some (default Js.undefined (Js.lookupLast (js "0") props))
  | _ => Some Js.undefined
  end.

Section Background.

(** The network and the platform: the rendering of doubles and the
    [TypeError] the engine raises at each site. *)
Variable fetch : Request → Settled Response.
Variable numberToString : spec_float → jsstring.
Variable typeError : Site → JsError.

Definition orThrow {A} (site : Site) (o : option A) : Settled A :=
  match o with
  | Some a => Fulfilled a
  | None => Rejected (typeError site)
  end.

(** [formattedAnswer], from [completion.usage?.total_tokens || 0] to the
    template string. *)
Definition formattedAnswer (completion : Js.value) : Settled jsstring :=
  match orThrow usage_of_completion (get completion (js "usage")) with
  | Rejected e => Rejected e
  | Fulfilled usage =>
      let totalTokens :=
        Js.or (Js.optGet usage (js "total_tokens"))
              (Js.number (Js.ofInt 0)) in
      match orThrow first_of_choices
                    (match get completion (js "choices") with
                     | Some choices => first choices
                     | None => None
                     end) with
      | Rejected e => Rejected e
      | Fulfilled choice =>
          match orThrow message_of_choice (get choice (js "message")) with
          | Rejected e => Rejected e
          | Fulfilled message =>
              match orThrow content_of_message
                            (get message (js "content")) with
              | Rejected e => Rejected e
              | Fulfilled content =>
                  match Js.or content (Js.str []) with
                  | Js.str rawAnswer =>
                      match Js.toString numberToString totalTokens with
                      | Some count =>
                          Fulfilled
                            (JsText.trim rawAnswer ++ js "    ["
                             ++ count ++ js "]")
                      | None => Rejected (typeError text_of_tokens)
                      end
                  | _ => Rejected (typeError trim_of_answer)
                  end
              end
          end
      end
  end.

(** The message the background task passes to [addMessage] when it
    settles at clock reading [now]. *)
Definition reply (key selectedModel : jsstring)
           (parts : list MessageContentPart) (now : Z) : Message :=
  match OpenAI.chat_completions_create fetch numberToString
          (typeError text_of_error_message)
          (OpenAI.createOpenAI key)
          (completionOptions selectedModel parts) with
  | Rejected error => ChatScreen.errorReply selectedModel now error
  | Fulfilled completion =>
      match formattedAnswer completion with
      | Rejected error => ChatScreen.errorReply selectedModel now error
      | Fulfilled answer =>
          {| m_id := JsString.ofZ (now + 1);
             m_role := assistant;
             m_content := content_string answer |}
      end
  end.

(** The end of the background task: the reply goes through the
    [addMessage] the callback was created with, so through the same
    [snap] as in [press], into whatever the store is by then. *)
Definition settle (key selectedModel : jsstring)
           (parts : list MessageContentPart) (now : Z)
           (snap prev : Store) : Store :=
  addMessage (reply key selectedModel parts now) snap prev.

End Background.

End Send.

(** ** The credential ([context/AuthContext.tsx]) *)

Module AsyncStorage.

(** The device's key-value store. *)
Definition t : Type := gmap (list N) (list N).

Definition getItem (key : jsstring) (store : t) : option jsstring :=
  store !! key.

(** A write settles as the device lets it: [fault] is the failure it
    reports, if any. *)
Definition setItem (fault : option JsError) (key value : jsstring) (store : t)
  : Settled t :=
  match fault with
  | Some e => Rejected e
  | None => Fulfilled (<[key := value]> store)
  end.

Definition removeItem (fault : option JsError) (key : jsstring) (store : t)
  : Settled t :=
  match fault with
  | Some e => Rejected e
  | None => Fulfilled (delete key store)
  end.

End AsyncStorage.

Module Auth.

Definition storageKey : jsstring := js "openai_api_key".

(** The two [useState] cells of [AuthProvider]. *)
Record State := mkState {
  apiKey : option jsstring;
  isLoading : bool
}.

Definition initial : State := {| apiKey := None; isLoading := true |}.

(** The mount effect, once [getItem] has answered. *)
Definition loaded (store : AsyncStorage.t) (st : State) : State :=
  {| apiKey := AsyncStorage.getItem storageKey store; isLoading := false |}.

(** [setApiKey]: the storage is written first, the state only when that
    succeeded. *)
Definition setApiKey (fault : option JsError) (key : option jsstring)
           (st : State) (store : AsyncStorage.t)
  : Settled (State * AsyncStorage.t) :=
  let written :=
    match key with
    | Some (c :: k) => AsyncStorage.setItem fault storageKey (c :: k) store
    | Some [] | None => AsyncStorage.removeItem fault storageKey store
    end in
  match written with
  | Rejected e => Rejected e
  | Fulfilled store' =>
      Fulfilled ({| apiKey := key; isLoading := isLoading st |}, store')
  end.

End Auth.

(** ** The login screen *)

Module Login.

Inductive Alert := alert (title message : jsstring).

Definition mustStartWithSk : Alert :=
  alert (js "Invalid API Key")
        (js "API key should start with " ++ ChatScreen.quote ++ js "sk-"
         ++ ChatScreen.quote).

Definition notValid : Alert :=
  alert (js "Invalid API Key")
        (js "The API key you entered is not valid. Please check and try again.").

Definition connectionError : Alert :=
  alert (js "Connection Error")
        (js "Unable to verify API key. Please check your internet connection and try again.").

(** What a run of [handleLogin] leaves: the alert shown, if any, the
    credential state and the device store. *)
Record Outcome := mkOutcome {
  shown : option Alert;
  auth : Auth.State;
  store : AsyncStorage.t
}.

Definition handleLogin (fetch : Request → Settled Response)
           (fault : option JsError) (typed : jsstring)
           (st : Auth.State) (device : AsyncStorage.t) : Outcome :=
  let trimmedKey := JsText.trim typed in
  if negb (JsString.startsWith trimmedKey (js "sk-")) then
    {| shown := Some mustStartWithSk; auth := st; store := device |}
  else
    match OpenAI.validateApiKey fetch trimmedKey with
    | Fulfilled true =>
        match Auth.setApiKey fault (Some trimmedKey) st device with
        | Fulfilled (st', device') =>
            {| shown := None; auth := st'; store := device' |}
        | Rejected _ =>
            {| shown := Some connectionError; auth := st; store := device |}
        end
    | Fulfilled false =>
        {| shown := Some notValid; auth := st; store := device |}
    | Rejected _ =>
        {| shown := Some connectionError; auth := st; store := device |}
    end.

End Login.

(** ** Vocabulary of the further properties *)

(** The operations that write messages. *)
Definition writesMessages (op : Op) : Prop :=
  match op with
  | AddMessage _ | UpdateLastMessage _ => True
  | _ => False
  end.

(** The operations that rewrite the current conversation in place. *)
Definition rewritesCurrent (op : Op) : Prop :=
  match op with
  | AddMessage _ | UpdateLastMessage _ | ClearCurrentConversation => True
  | _ => False
  end.

Definition withContent (content : MessageContent) (m : Message) : Message :=
  {| m_id := m_id m; m_role := m_role m; m_content := content |}.

(** The URL of an image part. *)
Definition partUrl (p : MessageContentPart) : option jsstring :=
  match p with
  | text_part _ => None
  | image_url_part u _ => Some u
  end.

Definition withMessages (msgs : list Message) (c : Conversation)
  : Conversation :=
  {| c_id := c_id c; c_title := c_title c; c_messages := msgs;
     c_model := c_model c |}.

Definition sampleScreen : Send.Screen :=
  {| Send.input := js "  What is 2+2?  ";
     Send.selectedImages := [js "data:image/jpeg;base64,AAAA"];
     Send.isLoading := false |}.

(** A completion as the endpoint returns it. *)
Definition sampleCompletion : Json.t :=
  Json.object
    [(js "id", Json.str (js "chatcmpl-1"));
     (js "object", Json.str (js "chat.completion"));
     (js "created", Json.number (Js.ofInt 1700000000));
     (js "model", Json.str (js "gpt-4o-mini"));
     (js "choices",
      Json.array
        [Json.object
           [(js "index", Json.number (Js.ofInt 0));
            (js "message",
             Json.object [(js "role", Json.str (js "assistant"));
                          (js "content", Json.str (js "21 - B "))]);
            (js "finish_reason", Json.str (js "stop"))]]);
     (js "usage",
      Json.object [(js "prompt_tokens", Json.number (Js.ofInt 900));
                   (js "completion_tokens", Json.number (Js.ofInt 5));
                   (js "total_tokens", Json.number (Js.ofInt 905))])].

Definition completionResponse : Response :=
  {| status := 200; statusText := js "OK";
     r_json := Fulfilled sampleCompletion |}.

(** The messages an engine gives its [TypeError]s, for the examples. *)
Definition sampleTypeError (site : Send.Site) : JsError :=
  newError
    match site with
    | Send.usage_of_completion => js "Cannot read property 'usage' of null"
    | Send.first_of_choices => js "Cannot read property '0' of undefined"
    | Send.message_of_choice => js "Cannot read property 'message' of undefined"
    | Send.content_of_message => js "Cannot read property 'content' of undefined"
    | Send.trim_of_answer => js "rawAnswer.trim is not a function"
    | Send.text_of_tokens => js "Cannot convert object to primitive value"
    | Send.text_of_error_message =>
        js "Cannot convert object to primitive value"
    end.

(** The member a parser keeps for [key]: the last one of that name. *)
Fixpoint lastMember (key : jsstring) (members : list (jsstring * Json.t))
  : option Json.t :=
  match members with
  | [] => None
  | (k, m) :: rest =>
      match lastMember key rest with
      | Some m' => Some m'
      | None => if decide (k = key) then Some m else None
      end
  end.

(** A completion text whose first choice carries the string [answer] as
    the content of its message; [tokens] is its [usage.total_tokens]
    member, if there is one. *)
Definition completionWith (answer : jsstring) (tokens : option Json.t)
           (j : Json.t) : Prop :=
  ∃ members choice choices message,
    j = Json.object members ∧
    lastMember (js "choices") members
      = Some (Json.array (Json.object choice :: choices)) ∧
    lastMember (js "message") choice = Some (Json.object message) ∧
    lastMember (js "content") message = Some (Json.str answer) ∧
    tokens =
      match lastMember (js "usage") members with
      | Some (Json.object usage) => lastMember (js "total_tokens") usage
      | _ => None
      end.

(** The request of a send. *)
Definition sendRequest (key selectedModel : jsstring)
           (parts : list MessageContentPart) : Request :=
  OpenAI.completionsRequest (OpenAI.createOpenAI key)
    (Send.completionOptions selectedModel parts).

(** The token count as the answer shows it: the rendering of the member
    when it is truthy and of 0 otherwise; [None] when the member has no
    primitive form. *)
Definition shownTokens (numberToString : spec_float → jsstring)
           (tokens : option Json.t) : option jsstring :=
  Js.toString numberToString
    (Js.or (default Js.undefined (Json.parse <$> tokens))
           (Js.number (Js.ofInt 0))).

(** The models endpoint accepts [key]: the listing request is answered by
    a 2xx response with a JSON body. *)
Definition endpointAccepts (fetch : Request → Settled Response)
           (key : jsstring) : Prop :=
  ∃ response j,
    fetch (OpenAI.modelsRequest (OpenAI.createOpenAI key)) = Fulfilled response ∧
    ok response = true ∧
    r_json response = Fulfilled j.

(** A models listing answered with 200 and an empty list. *)
Definition modelsResponse : Response :=
  {| status := 200; statusText := js "OK";
     r_json :=
       Fulfilled (Json.object [(js "object", Json.str (js "list"));
                               (js "data", Json.array [])]) |}.

(** A device store that holds an unrelated entry. *)
Definition sampleDevice : AsyncStorage.t :=
  {[ js "theme" := js "dark" ]}.

(** What a key is stored as: an empty key is no key. *)
Definition storedAs (key : option jsstring) : option jsstring :=
  match key with
  | Some (c :: k) => Some (c :: k)
  | Some [] | None => None
  end.

(** ** Calls through any render's closure

    [step] gives an operation the store it writes as the store it reads.
    The operation itself reads the render it was created in. *)

Definition applyOp (op : Op) (snap prev : Store) : Store :=
  match op with
  | CreateConversation now => createConversation now snap prev
  | AddMessage message => addMessage message snap prev
  | UpdateLastMessage content => updateLastMessage content snap prev
  | SelectConversation id => selectConversation id snap prev
  | DeleteConversation id => deleteConversation id snap prev
  | ClearCurrentConversation => clearCurrentConversation snap prev
  | SetSelectedModel model => setSelectedModel model prev
  end.

(** The stores the provider can go through, latest first, when each call
    is made through the closure of some render so far, not necessarily the
    latest: an asynchronous task keeps the closure it started with. *)
Inductive rendered : list Store → Prop :=
| rendered_initial : rendered [initialStore]
| rendered_call op snap latest earlier :
    rendered (latest :: earlier) →
    snap ∈ latest :: earlier →
    rendered (applyOp op snap latest :: latest :: earlier).
(** ** Properties of the store *)

Section Titles.

Lemma findTextPart_head parts :
  findTextPart parts = head (omap partText parts).
Proof.
  induction parts as [|[t|u d] parts IH]; simpl; auto.
Qed.

Lemma deriveTitle_truncated30 s : deriveTitle s = truncated30 s.
Proof.
  unfold deriveTitle, truncated30, JsString.slice0.
  destruct (decide (30 < length s)) as [Hlt|Hge].
  - rewrite decide_False by lia. reflexivity.
  - rewrite decide_True by lia.
    rewrite take_ge by lia. apply app_nil_r.
Qed.

Lemma deriveTitle_messageText m : deriveTitle (messageText m) = titleOf m.
Proof.
  unfold messageText, titleOf, textContent.
  destruct (m_content m) as [s|parts].
  - apply deriveTitle_truncated30.
  - rewrite <- findTextPart_head.
    destruct (findTextPart parts) as [t|].
    + apply deriveTitle_truncated30.
    + reflexivity.
Qed.

Lemma run_cons op ops st : run (op :: ops) st = run ops (step st op).
Proof. reflexivity. Qed.

(** One [addMessage] on a store with a current conversation. *)
Lemma addMessage_current m st cur :
  currentConversation st = Some cur →
  ∃ cur',
    currentConversation (step st (AddMessage m)) = Some cur' ∧
    c_id cur' = c_id cur ∧
    c_model cur' = c_model cur ∧
    c_messages cur' = c_messages cur ++ [m] ∧
    c_title cur' =
      (if decide (c_messages cur = [] ∧ m_role m = user)
       then titleOf m else c_title cur) ∧
    (cur ∈ conversations st →
     cur' ∈ conversations (step st (AddMessage m))).
Proof.
  intros Hcur. simpl. unfold addMessage. rewrite Hcur.
  eexists. split; [reflexivity|]. simpl.
  repeat split.
  - rewrite deriveTitle_messageText.
    destruct (decide (c_messages cur = [] ∧ m_role m = user)) as [[He Hu]|Hn].
    + rewrite decide_True; [reflexivity|]. rewrite He. auto.
    + rewrite decide_False; [reflexivity|].
      intros [Hl Hu]. apply Hn. split; [|exact Hu].
      destruct (c_messages cur); [reflexivity|discriminate Hl].
  - intros Hin. unfold replaceById.
    apply list_elem_of_fmap. exists cur. split; [|exact Hin].
    simpl.
    match goal with
    | |- _ = (if ?d then _ else _) => destruct d as [_|Hne]
    end; [reflexivity | contradiction Hne; reflexivity].
Qed.

(** Any number of them: the messages pile up behind those already there,
    and only the very first message of an empty conversation can set the
    title. *)
Lemma addMessages_current msgs : ∀ st cur,
  currentConversation st = Some cur →
  ∃ cur',
    currentConversation (run (map AddMessage msgs) st) = Some cur' ∧
    c_id cur' = c_id cur ∧
    c_model cur' = c_model cur ∧
    c_messages cur' = c_messages cur ++ msgs ∧
    c_title cur' =
      match c_messages cur, msgs with
      | [], m :: _ =>
          if decide (m_role m = user) then titleOf m else c_title cur
      | _, _ => c_title cur
      end ∧
    (cur ∈ conversations st →
     cur' ∈ conversations (run (map AddMessage msgs) st)).
Proof.
  induction msgs as [|m msgs IH]; intros st cur Hcur.
  - exists cur. simpl. rewrite app_nil_r.
    repeat split; auto. destruct (c_messages cur); reflexivity.
  - destruct (addMessage_current m st cur Hcur)
      as (c1 & Hc1 & Hid & Hmodel & Hmsgs & Htitle & Hin).
    destruct (IH _ _ Hc1) as (c2 & Hc2 & Hid2 & Hmodel2 & Hmsgs2 & Htitle2 & Hin2).
    exists c2. rewrite map_cons, run_cons.
    split; [exact Hc2|].
    split; [congruence|]. split; [congruence|].
    split; [rewrite Hmsgs2, Hmsgs, <- app_assoc; reflexivity|].
    split; [|auto].
    rewrite Htitle2, Hmsgs, Htitle.
    destruct (c_messages cur) as [|x xs]; cbn [app].
    + destruct (decide (m_role m = user)) as [Hu|Hu].
      * rewrite decide_True by (split; [reflexivity|exact Hu]). reflexivity.
      * rewrite decide_False by (intros [_ ?]; contradiction). reflexivity.
    + rewrite decide_False by (intros [? _]; discriminate). reflexivity.
Qed.

End Titles.

(** C1, counterexample: a conversation whose first message is an
    assistant's keeps the title "New Chat" when a user message follows,
    although that user message is the first user-authored one. *)
Lemma title_ignores_later_user_message :
  ¬ titleFollowsFirstUserMessage
      (run [CreateConversation 1700000000000] initialStore)
      [assistantHello; userHi].
Proof.
  intros H.
  specialize (H _ eq_refl (conj eq_refl eq_refl)).
  vm_compute in H. discriminate H.
Qed.

(** C1, amended: after any sequence of [addMessage] calls on a fresh current
    conversation, each call going through the [addMessage] of the latest
    render and so reading the conversation the call before it left ([run]),
    the conversation holds exactly the added messages, and its title is the
    one derived from the first message added when that message is
    user-authored (its text content cut to 30 characters, with "..."
    appended when it was longer, or "Image" for a part list without a text
    part); when the first message is not user-authored, or no message was
    added, the title is still "New Chat".  The conversation in the
    collection is kept equal to the current one.  What a call through an
    older render's closure does is not part of this statement. *)
Theorem addMessage_title_from_first_message st cur msgs :
  currentConversation st = Some cur →
  isFresh cur →
  ∃ cur',
    currentConversation (run (map AddMessage msgs) st) = Some cur' ∧
    c_id cur' = c_id cur ∧
    c_messages cur' = msgs ∧
    c_title cur' = titleOfFirstMessage msgs ∧
    (cur ∈ conversations st →
     cur' ∈ conversations (run (map AddMessage msgs) st)).
Proof.
  intros Hcur [Htitle Hempty].
  destruct (addMessages_current msgs st cur Hcur)
    as (cur' & Hcur' & Hid & _ & Hmsgs & Ht & Hin).
  exists cur'. rewrite Hempty in Hmsgs, Ht. simpl in Hmsgs.
  repeat split; auto.
  rewrite Ht, Htitle. unfold titleOfFirstMessage.
  destruct msgs; reflexivity.
Qed.


Lemma addMessage_title_from_first_message_witness :
  ∃ cur',
    currentConversation
      (run (map AddMessage [userLongQuestion; assistantHello])
           (run [CreateConversation 1700000000000] initialStore)) = Some cur' ∧
    c_id cur' = js "1700000000000" ∧
    c_messages cur' = [userLongQuestion; assistantHello] ∧
    c_title cur' = js "Which of the five options is t..." ∧
    cur' ∈ conversations
      (run (map AddMessage [userLongQuestion; assistantHello])
           (run [CreateConversation 1700000000000] initialStore)).
Proof.
  destruct (addMessage_title_from_first_message
              (run [CreateConversation 1700000000000] initialStore)
              {| c_id := js "1700000000000"; c_title := js "New Chat";
                 c_messages := []; c_model := js "gpt-4o-mini" |}
              [userLongQuestion; assistantHello]
              eq_refl (conj eq_refl eq_refl))
    as (cur' & H1 & H2 & H3 & H4 & H5).
  exists cur'. repeat split; auto.
  apply H5. vm_compute. left.
Defined.

(** *** Identifiers *)

Section Identifiers.

Lemma lit_inj s1 s2 : JsString.lit s1 = JsString.lit s2 → s1 = s2.
Proof.
  unfold JsString.lit. intros H.
  rewrite <- (string_of_list_ascii_of_string s1).
  rewrite <- (string_of_list_ascii_of_string s2).
  f_equal.
  revert H. generalize (list_ascii_of_string s1) (list_ascii_of_string s2).
  induction l as [|a l IH]; intros [|b l'] H; try discriminate; auto.
  injection H as Hab Hl.
  f_equal; [|auto].
  rewrite <- (ascii_N_embedding a), <- (ascii_N_embedding b). congruence.
Qed.

Lemma to_int_proper z : Z.to_int z ≠ Decimal.Pos Decimal.Nil ∧
                        Z.to_int z ≠ Decimal.Neg Decimal.Nil.
Proof.
  destruct z as [|p|p]; simpl; split; try discriminate;
    intros [= H]; exact (DecimalPos.Unsigned.to_uint_nonnil p H).
Qed.

(** Distinct clock readings give distinct identifiers. *)
Lemma ofZ_inj z1 z2 : JsString.ofZ z1 = JsString.ofZ z2 → z1 = z2.
Proof.
  unfold JsString.ofZ. intros H%lit_inj.
  destruct (to_int_proper z1) as [Hp1 Hn1].
  destruct (to_int_proper z2) as [Hp2 Hn2].
  pose proof (NilZero.isi _ Hp1 Hn1) as E1.
  pose proof (NilZero.isi _ Hp2 Hn2) as E2.
  rewrite H in E1. rewrite E1 in E2. injection E2 as E.
  rewrite <- (DecimalZ.of_to z1), <- (DecimalZ.of_to z2). congruence.
Qed.

Lemma replaceById_ids updated prev :
  map c_id (replaceById updated prev) = map c_id prev.
Proof.
  unfold replaceById. rewrite map_map. apply map_ext.
  intros c. destruct (decide (c_id c = c_id updated)); congruence.
Qed.

Lemma filter_ids id cs :
  map c_id (List.filter (fun c => negb (bool_decide (c_id c = id))) cs)
  = List.filter (fun i => negb (bool_decide (i = id))) (map c_id cs).
Proof.
  induction cs as [|c cs IH]; simpl; [reflexivity|].
  destruct (bool_decide (c_id c = id)); simpl; congruence.
Qed.

(** What each operation does to the sequence of identifiers. *)
Lemma step_ids st op :
  ids (step st op) =
  match op with
  | CreateConversation now => JsString.ofZ now :: ids st
  | DeleteConversation id =>
      List.filter (fun i => negb (bool_decide (i = id))) (ids st)
  | _ => ids st
  end.
Proof.
  unfold ids.
  destruct op; simpl;
    unfold addMessage, updateLastMessage, selectConversation,
           clearCurrentConversation;
    try destruct (currentConversation st);
    try destruct (findById id (conversations st));
    simpl; auto using replaceById_ids, filter_ids.
Qed.

Lemma NoDup_List_filter {A} (f : A → bool) (l : list A) :
  NoDup l → NoDup (List.filter f l).
Proof.
  induction 1 as [|x l Hx Hl IH]; simpl; [constructor|].
  destruct (f x); [|exact IH].
  constructor; [|exact IH].
  rewrite list_elem_of_In, filter_In, <- list_elem_of_In. tauto.
Qed.

Lemma fresh_ids_run ops : ∀ st,
  NoDup (ids st) →
  NoDup (creationTimes ops) →
  (∀ t, t ∈ creationTimes ops → JsString.ofZ t ∉ ids st) →
  NoDup (ids (run ops st)).
Proof.
  induction ops as [|op ops IH]; intros st Hnd Hts Hfresh; [exact Hnd|].
  rewrite run_cons.
  destruct op;
    try (apply IH; rewrite ?step_ids; simpl in *; auto; fail).
  - (* createConversation *)
    simpl in Hts. apply NoDup_cons in Hts as [Hnow Hts].
    apply IH; rewrite ?step_ids; auto.
    + constructor; [|exact Hnd]. apply Hfresh. simpl. left.
    + intros t Ht [E%ofZ_inj|Hin]%elem_of_cons.
      * subst t. contradiction.
      * apply (Hfresh t); [simpl; right; exact Ht|exact Hin].
  - (* deleteConversation *)
    apply IH; rewrite ?step_ids; auto using NoDup_List_filter.
    intros t Ht Hin. apply (Hfresh t Ht).
    rewrite list_elem_of_In in Hin. apply filter_In in Hin as [Hin _].
    rewrite list_elem_of_In. exact Hin.
Qed.

End Identifiers.

(** C3, counterexample: two conversations created at the same clock reading
    carry the same identifier. *)
Lemma same_millisecond_same_id :
  ¬ NoDup (ids (run [CreateConversation 1700000000000;
                     CreateConversation 1700000000000] initialStore)).
Proof.
  intros H. apply NoDup_cons in H as [H _].
  apply H. vm_compute. left.
Qed.

(** C3, amended: in every state reached from the initial store by a sequence
    of operations whose [createConversation] calls read pairwise different
    clock values, the conversations of the collection are pairwise distinct
    by identifier. *)
Theorem distinct_clock_distinct_ids ops :
  NoDup (creationTimes ops) →
  NoDup (ids (run ops initialStore)).
Proof.
  intros Hts. apply fresh_ids_run; [constructor|exact Hts|].
  intros t _ Hin. inversion Hin.
Qed.


Lemma distinct_clock_distinct_ids_witness :
  NoDup (ids (run sampleTrace initialStore)).
Proof.
  apply (distinct_clock_distinct_ids sampleTrace).
  vm_compute. repeat constructor; rewrite list_elem_of_In; simpl; intuition discriminate.
Defined.

(** *** The current conversation and the collection *)

Section Synchronised.

Lemma replaceById_self updated prev cur :
  cur ∈ prev → c_id cur = c_id updated → updated ∈ replaceById updated prev.
Proof.
  intros Hin Hid. unfold replaceById.
  apply list_elem_of_fmap. exists cur. split; [|exact Hin].
  rewrite decide_True by exact Hid. reflexivity.
Qed.

Lemma findById_Some id cs conv :
  findById id cs = Some conv → conv ∈ cs ∧ c_id conv = id.
Proof.
  unfold findById. intros [Hin Hid]%find_some.
  rewrite list_elem_of_In. split; [exact Hin|].
  apply bool_decide_eq_true in Hid. exact Hid.
Qed.

Lemma findById_None id cs :
  findById id cs = None ↔ ∀ c, c ∈ cs → c_id c ≠ id.
Proof.
  unfold findById. split.
  - intros H c Hin Hid.
    rewrite list_elem_of_In in Hin.
    pose proof (find_none _ _ H c Hin) as Hf. simpl in Hf.
    apply bool_decide_eq_false in Hf. contradiction.
  - intros H. destruct (List.find _ cs) as [c|] eqn:E; [|reflexivity].
    apply find_some in E as [Hin Hid].
    apply bool_decide_eq_true in Hid.
    rewrite <- list_elem_of_In in Hin. destruct (H c Hin Hid).
Qed.

Lemma elem_of_List_filter {A} (f : A → bool) (l : list A) x :
  x ∈ List.filter f l ↔ x ∈ l ∧ f x = true.
Proof. rewrite !list_elem_of_In. apply filter_In. Qed.

Lemma step_currentInCollection st op :
  currentInCollection st → currentInCollection (step st op).
Proof.
  unfold currentInCollection. intros Hinv.
  destruct op; simpl.
  - (* createConversation *)
    intros cur [= <-]. left.
  - (* addMessage *)
    unfold addMessage.
    destruct (currentConversation st) as [c|] eqn:Hc; [|intros cur H; congruence].
    intros cur [= <-]. simpl.
    apply (replaceById_self _ _ c); [apply Hinv|]; reflexivity.
  - (* updateLastMessage *)
    unfold updateLastMessage.
    destruct (currentConversation st) as [c|] eqn:Hc; [|intros cur H; congruence].
    intros cur [= <-]. simpl.
    apply (replaceById_self _ _ c); [apply Hinv|]; reflexivity.
  - (* selectConversation *)
    unfold selectConversation.
    destruct (findById id (conversations st)) as [conv|] eqn:Hf; [|exact Hinv].
    intros cur [= <-]. simpl.
    apply findById_Some in Hf. tauto.
  - (* deleteConversation *)
    unfold deleteConversation. simpl.
    destruct (currentConversation st) as [c|] eqn:Hc; simpl; [|discriminate].
    destruct (bool_decide (c_id c = id)) eqn:Hid; [discriminate|].
    intros cur [= <-].
    apply elem_of_List_filter. rewrite Hid. auto.
  - (* clearCurrentConversation *)
    unfold clearCurrentConversation.
    destruct (currentConversation st) as [c|] eqn:Hc; [|intros cur H; congruence].
    intros cur [= <-]. simpl.
    apply (replaceById_self _ _ c); [apply Hinv|]; reflexivity.
  - (* setSelectedModel *)
    exact Hinv.
Qed.

Lemma run_currentInCollection ops : ∀ st,
  currentInCollection st → currentInCollection (run ops st).
Proof.
  induction ops as [|op ops IH]; intros st Hinv; [exact Hinv|].
  rewrite run_cons. apply IH, step_currentInCollection, Hinv.
Qed.

End Synchronised.

(** Along operations that each go through the latest render ([run]), a
    current conversation that is not null is a member of the collection in
    every state reached from the initial store. *)
Theorem current_is_member ops :
  currentInCollection (run ops initialStore).
Proof.
  apply run_currentInCollection. intros cur H. discriminate H.
Qed.

(** *** Deleting the current conversation *)

(** C6: when the current conversation has identifier [id],
    [deleteConversation(id)] leaves no current conversation and no
    conversation with that identifier in the collection, the others staying
    in place; a [selectConversation(id)] after it changes nothing. *)
Theorem delete_current_then_select st cur id :
  currentConversation st = Some cur →
  c_id cur = id →
  let st1 := step st (DeleteConversation id) in
  currentConversation st1 = None ∧
  (∀ c, c ∈ conversations st1 → c_id c ≠ id) ∧
  (∀ c, c_id c ≠ id → (c ∈ conversations st1 ↔ c ∈ conversations st)) ∧
  step st1 (SelectConversation id) = st1.
Proof.
  intros Hcur Hid st1.
  assert (Hgone : ∀ c, c ∈ conversations st1 → c_id c ≠ id).
  { intros c [_ Hc]%elem_of_List_filter.
    apply negb_true_iff, bool_decide_eq_false in Hc. exact Hc. }
  split; [|split; [exact Hgone|split]].
  - subst st1. simpl. rewrite Hcur. simpl.
    rewrite bool_decide_eq_true_2 by exact Hid. reflexivity.
  - intros c Hc. subst st1. simpl. rewrite elem_of_List_filter.
    rewrite bool_decide_eq_false_2 by exact Hc. simpl. tauto.
  - simpl. unfold selectConversation.
    apply findById_None in Hgone. fold st1. rewrite Hgone. reflexivity.
Qed.

Lemma delete_current_then_select_witness :
  let st := run [CreateConversation 1700000000000; AddMessage userHi;
                 CreateConversation 1700000000001] initialStore in
  let st1 := step st (DeleteConversation (js "1700000000001")) in
  currentConversation st1 = None ∧
  (∀ c, c ∈ conversations st1 → c_id c ≠ js "1700000000001") ∧
  (∀ c, c_id c ≠ js "1700000000001" →
        (c ∈ conversations st1 ↔ c ∈ conversations st)) ∧
  step st1 (SelectConversation (js "1700000000001")) = st1.
Proof.
  intros st.
  apply (delete_current_then_select st
           {| c_id := js "1700000000001"; c_title := js "New Chat";
              c_messages := []; c_model := js "gpt-4o-mini" |}
           (js "1700000000001")).
  - reflexivity.
  - reflexivity.
Defined.

(** *** Patching the last message *)

Section Patching.

Lemma patchLast_length content messages :
  length (patchLast content messages) = length messages.
Proof.
  unfold patchLast. destruct (decide _); [|reflexivity].
  destruct (messages !! _); [apply length_insert|reflexivity].
Qed.

Lemma patchLast_idem content messages :
  patchLast content (patchLast content messages) = patchLast content messages.
Proof.
  unfold patchLast at 1. rewrite patchLast_length.
  destruct (decide (0 < length messages)) as [Hpos|Hz]; [|reflexivity].
  unfold patchLast. rewrite decide_True by exact Hpos.
  destruct (messages !! (length messages - 1)) as [lastMsg|] eqn:Hlast.
  - rewrite list_lookup_insert_eq by lia. simpl.
    apply list_insert_insert_eq.
  - rewrite Hlast. reflexivity.
Qed.

Lemma replaceById_idem updated prev :
  replaceById updated (replaceById updated prev) = replaceById updated prev.
Proof.
  unfold replaceById. rewrite map_map. apply map_ext. intros c.
  destruct (decide (c_id c = c_id updated)) as [He|Hne].
  - rewrite decide_True by reflexivity. reflexivity.
  - rewrite decide_False by exact Hne. reflexivity.
Qed.

End Patching.

(** C7: [updateLastMessage(content)] applied twice leaves the store, and so
    the message sequence of the current conversation and of the collection,
    as one application leaves it. *)
Theorem updateLastMessage_idempotent st content :
  step (step st (UpdateLastMessage content)) (UpdateLastMessage content)
  = step st (UpdateLastMessage content).
Proof.
  simpl. unfold updateLastMessage.
  destruct (currentConversation st) as [cur|] eqn:Hcur; simpl.
  - rewrite patchLast_idem, replaceById_idem. reflexivity.
  - rewrite Hcur. reflexivity.
Qed.

(** *** Clearing the current conversation *)

(** C8: [clearCurrentConversation] changes nothing when there is no current
    conversation.  Otherwise the current conversation becomes one with no
    messages, the title "New Chat" and the identifier and model it had;
    every collection entry with that identifier becomes that same
    conversation, every other entry stays where and what it was, and the
    selected model is untouched. *)
Theorem clearCurrentConversation_frame st :
  let st' := step st ClearCurrentConversation in
  match currentConversation st with
  | None => st' = st
  | Some cur =>
      ∃ cleared,
        currentConversation st' = Some cleared ∧
        c_messages cleared = [] ∧
        c_title cleared = js "New Chat" ∧
        c_id cleared = c_id cur ∧
        c_model cleared = c_model cur ∧
        length (conversations st') = length (conversations st) ∧
        (∀ i c, conversations st !! i = Some c →
           conversations st' !! i =
           Some (if decide (c_id c = c_id cur) then cleared else c)) ∧
        selectedModel st' = selectedModel st
  end.
Proof.
  simpl. unfold clearCurrentConversation.
  destruct (currentConversation st) as [cur|]; [|reflexivity].
  eexists. split; [reflexivity|]. simpl.
  repeat split.
  - unfold replaceById. apply length_map.
  - intros i c Hi. unfold replaceById.
    change (map ?f ?l) with (f <$> l).
    rewrite list_lookup_fmap, Hi. reflexivity.
Qed.


(** *** Stale closures

    The state machine above runs every operation on the store it was
    created in.  An operation kept from an earlier render still reads that
    render's current conversation: called after the conversation was
    deleted, [addMessage] brings it back as current although the collection
    no longer holds it. *)
Lemma stale_addMessage_after_delete :
  let st := run [CreateConversation 1700000000000] initialStore in
  let st' := step st (DeleteConversation (js "1700000000000")) in
  ¬ currentInCollection (addMessage assistantHello st st').
Proof.
  intros st st' H.
  specialize (H _ eq_refl). vm_compute in H. inversion H.
Qed.

(** C4, at a failing input: a conversation is created, a send is started on
    it, the conversation is deleted, and then the reply settles.  The reply
    goes through the [addMessage] the send was started with, which still
    reads the conversation of that render: it makes that conversation
    current again while the collection, updated from its latest value,
    stays empty.  Every store of the trace comes from the one before it by
    an operation of the provider, and in the last one the current
    conversation is not a member of the collection. *)
Theorem stale_reply_leaves_collection :
  let created := step initialStore (CreateConversation 1700000000000) in
  let pressed :=
    snd (Send.press (Some (js "sk-test")) 1700000000005 sampleScreen
                    created created) in
  let deleted := step pressed (DeleteConversation (js "1700000000000")) in
  let reply :=
    Send.reply (alwaysResponds completionResponse) integersOnly
               sampleTypeError (js "sk-test") (js "gpt-4o-mini")
               (Send.contentParts sampleScreen) 1700000002000 in
  let settled :=
    Send.settle (alwaysResponds completionResponse) integersOnly
                sampleTypeError (js "sk-test") (js "gpt-4o-mini")
                (Send.contentParts sampleScreen) 1700000002000
                created deleted in
  pressed
    = step created (AddMessage (Send.userMessage 1700000000005 sampleScreen)) ∧
  settled = applyOp (AddMessage reply) created deleted ∧
  rendered [settled; deleted; pressed; created; initialStore] ∧
  currentConversation deleted = None ∧
  conversations settled = [] ∧
  currentConversation settled
    = Some {| c_id := js "1700000000000";
              c_title := js "New Chat";
              c_messages :=
                [{| m_id := js "1700000002001"; m_role := assistant;
                    m_content := content_string (js "21 - B    [905]") |}];
              c_model := js "gpt-4o-mini" |} ∧
  ¬ currentInCollection settled.
Proof.
  intros created pressed deleted reply settled.
  assert (Hpressed :
    pressed
    = step created (AddMessage (Send.userMessage 1700000000005 sampleScreen)))
    by reflexivity.
  assert (Hsettled : settled = applyOp (AddMessage reply) created deleted)
    by reflexivity.
  assert (Hcurrent :
    currentConversation settled
    = Some {| c_id := js "1700000000000";
              c_title := js "New Chat";
              c_messages :=
                [{| m_id := js "1700000002001"; m_role := assistant;
                    m_content := content_string (js "21 - B    [905]") |}];
              c_model := js "gpt-4o-mini" |}) by reflexivity.
  assert (Hempty : conversations settled = []) by reflexivity.
  split; [exact Hpressed|]. split; [exact Hsettled|].
  split; [|split; [reflexivity|split; [exact Hempty|split; [exact Hcurrent|]]]].
  - rewrite Hsettled.
    apply (rendered_call (AddMessage reply) created deleted
             [pressed; created; initialStore]);
      [|right; right; left].
    apply (rendered_call (DeleteConversation (js "1700000000000"))
             pressed pressed [created; initialStore]); [|left].
    rewrite Hpressed.
    apply (rendered_call
             (AddMessage (Send.userMessage 1700000000005 sampleScreen))
             created created [initialStore]); [|left].
    apply (rendered_call (CreateConversation 1700000000000)
             initialStore initialStore []); [|left].
    apply rendered_initial.
  - intros Hin. specialize (Hin _ Hcurrent).
    rewrite Hempty in Hin. inversion Hin.
Qed.

(** ** Properties of the completion client *)

Section RequestBody.

(** The literal handed to [JSON.stringify] always has the seven keys. *)
Lemma requestBody_keys options :
  ∃ props, OpenAI.requestBody options = Js.object props ∧
           map fst props = sevenFields.
Proof. eexists. split; reflexivity. Qed.

Lemma sentBody_fieldNames key options :
  Json.fieldNames (sentBody key options) =
  [js "model"; js "messages"; js "max_tokens"]
  ++ whenProvided (js "temperature") (OpenAI.temperature options)
  ++ whenProvided (js "top_p") (OpenAI.top_p options)
  ++ whenProvided (js "frequency_penalty") (OpenAI.frequency_penalty options)
  ++ whenProvided (js "presence_penalty") (OpenAI.presence_penalty options).
Proof.
  destruct options as [mo ms mt te tp fp pp st].
  unfold sentBody, OpenAI.completionsRequest, OpenAI.requestBody.
  cbn [body OpenAI.model OpenAI.messages OpenAI.max_tokens OpenAI.temperature
       OpenAI.top_p OpenAI.frequency_penalty OpenAI.presence_penalty].
  destruct mt as [[s|s| |s m e]|], te, tp, fp, pp; reflexivity.
Qed.

Lemma sentBody_max_tokens key options :
  Json.field (js "max_tokens") (sentBody key options) =
  Json.stringify
    (Js.or (OpenAI.optNumber (OpenAI.max_tokens options))
           (Js.number (Js.ofInt 4096))).
Proof.
  destruct options as [mo ms mt te tp fp pp st].
  unfold sentBody, OpenAI.completionsRequest, OpenAI.requestBody.
  cbn [body OpenAI.model OpenAI.messages OpenAI.max_tokens].
  destruct mt as [[s|s| |s m e]|]; reflexivity.
Qed.

End RequestBody.

(** C9, counterexample: for the options the chat screen passes (a model and
    messages, nothing else) the body has no [temperature], [top_p],
    [frequency_penalty] or [presence_penalty] member. *)
Lemma screen_request_has_three_fields :
  ¬ hasExactlyFields sevenFields (sentBody (js "sk-test") screenOptions).
Proof.
  intros H.
  assert (Hin : js "temperature" ∈ sevenFields).
  { unfold sevenFields. do 3 right. left. }
  apply H in Hin. rewrite sentBody_fieldNames in Hin.
  vm_compute in Hin.
  repeat (apply elem_of_cons in Hin as [Hin|Hin]; [discriminate Hin|]).
  inversion Hin.
Qed.

(** C9, amended: the JSON body that [chat.completions.create] sends has the
    members [model], [messages] and [max_tokens], followed by each of
    [temperature], [top_p], [frequency_penalty] and [presence_penalty] that
    the options provide (a member whose value is undefined is not written),
    and no other member; in particular [stream] is never forwarded. *)
Theorem request_body_fields key options :
  Json.fieldNames (sentBody key options) =
    [js "model"; js "messages"; js "max_tokens"]
    ++ whenProvided (js "temperature") (OpenAI.temperature options)
    ++ whenProvided (js "top_p") (OpenAI.top_p options)
    ++ whenProvided (js "frequency_penalty") (OpenAI.frequency_penalty options)
    ++ whenProvided (js "presence_penalty") (OpenAI.presence_penalty options)
  ∧ js "stream" ∉ Json.fieldNames (sentBody key options).
Proof.
  split; [apply sentBody_fieldNames|].
  rewrite sentBody_fieldNames.
  destruct (OpenAI.temperature options), (OpenAI.top_p options),
           (OpenAI.frequency_penalty options),
           (OpenAI.presence_penalty options);
    vm_compute; intros Hin;
    repeat (apply elem_of_cons in Hin as [Hin|Hin]; [discriminate Hin|]);
    inversion Hin.
Qed.

(** C10, counterexample: NaN is a provided [max_tokens] that is not zero,
    and the body carries 4096 in its place. *)
Lemma nan_max_tokens_replaced :
  ¬ carriesGivenMaxTokens (withMaxTokens S754_nan).
Proof.
  intros H. specialize (H (js "sk-test") S754_nan eq_refl eq_refl).
  vm_compute in H. discriminate H.
Qed.

(** C10, amended: the request body carries [max_tokens] = 4096 when the
    options give none, or give one that is falsy, which is 0 (of either
    sign) or NaN; it carries every other finite [max_tokens] as given; an
    infinite one is written [null]. *)
Theorem max_tokens_defaulted key options :
  let sent := Json.field (js "max_tokens") (sentBody key options) in
  (OpenAI.max_tokens options = None →
   sent = Some (Json.number (Js.ofInt 4096))) ∧
  (∀ x, OpenAI.max_tokens options = Some x →
        Js.isZero x || Js.isNaN x = true →
        sent = Some (Json.number (Js.ofInt 4096))) ∧
  (∀ x, OpenAI.max_tokens options = Some x →
        Js.isZero x || Js.isNaN x || Js.isInfinite x = false →
        sent = Some (Json.number x)) ∧
  (∀ x, OpenAI.max_tokens options = Some x →
        Js.isInfinite x = true →
        sent = Some Json.null).
Proof.
  intros sent. subst sent. rewrite sentBody_max_tokens.
  repeat split.
  - intros ->. reflexivity.
  - intros x -> Hx. destruct x; try discriminate Hx; reflexivity.
  - intros x -> Hx. destruct x; try discriminate Hx; reflexivity.
  - intros x -> Hx. destruct x; try discriminate Hx; reflexivity.
Qed.

Lemma max_tokens_defaulted_witness :
  Json.field (js "max_tokens")
             (sentBody (js "sk-test") (withMaxTokens (Js.ofInt 256)))
  = Some (Json.number (Js.ofInt 256)).
Proof.
  destruct (max_tokens_defaulted (js "sk-test") (withMaxTokens (Js.ofInt 256)))
    as (_ & _ & Hfinite & _).
  apply (Hfinite (Js.ofInt 256)).
  - reflexivity.
  - vm_compute. reflexivity.
Defined.

(** *** Failures *)

Section Substrings.

Lemma startsWith_prefix s : ∀ p,
  JsString.startsWith s p = true ↔ ∃ r, s = p ++ r.
Proof.
  induction s as [|b s IH]; intros [|a p]; simpl.
  - split; [exists []; reflexivity|reflexivity].
  - split; [discriminate|intros [r H]; discriminate H].
  - split; [exists (b :: s); reflexivity|reflexivity].
  - rewrite andb_true_iff, N.eqb_eq, IH. split.
    + intros [-> [r ->]]. exists r. reflexivity.
    + intros [r [= -> ->]]. split; [reflexivity|exists r; reflexivity].
Qed.

(** [includes] is substring search. *)
Lemma includes_substring p : ∀ s,
  JsString.includes s p = true ↔ ∃ l r, s = l ++ p ++ r.
Proof.
  induction s as [|b s IH]; cbn [JsString.includes]; rewrite orb_true_iff.
  - rewrite startsWith_prefix. split.
    + intros [[r H]|H]; [|discriminate H]. exists [], r. exact H.
    + intros (l & r & H). left.
      destruct l as [|x l]; [exists r; exact H|discriminate H].
  - rewrite startsWith_prefix, IH. split.
    + intros [[r H]|(l & r & H)].
      * exists [], r. exact H.
      * exists (b :: l), r. rewrite H. reflexivity.
    + intros (l & r & H). destruct l as [|x l].
      * left. exists r. exact H.
      * right. injection H as _ H. exists l, r. exact H.
Qed.

End Substrings.

(** C5: [validateApiKey] never rejects; it resolves to [true] exactly when
    [models.list] is fulfilled and to [false] exactly when [models.list]
    rejects, which it does on a transport failure and on every response
    that is not 2xx, a 401 among them. *)
Theorem validateApiKey_settles fetch key :
  let listing := OpenAI.models_list fetch (OpenAI.createOpenAI key) in
  let request := OpenAI.modelsRequest (OpenAI.createOpenAI key) in
  (∀ reason, OpenAI.validateApiKey fetch key ≠ Rejected reason) ∧
  (OpenAI.validateApiKey fetch key = Fulfilled true
   ↔ ∃ models, listing = Fulfilled models) ∧
  (OpenAI.validateApiKey fetch key = Fulfilled false
   ↔ ∃ reason, listing = Rejected reason) ∧
  (∀ reason, fetch request = Rejected reason →
     OpenAI.validateApiKey fetch key = Fulfilled false) ∧
  (∀ response, fetch request = Fulfilled response → ok response = false →
     OpenAI.validateApiKey fetch key = Fulfilled false) ∧
  (∀ response, fetch request = Fulfilled response → status response = 401%N →
     OpenAI.validateApiKey fetch key = Fulfilled false).
Proof.
  intros listing request.
  assert (Hbad : ∀ response, fetch request = Fulfilled response →
                   ok response = false →
                   OpenAI.validateApiKey fetch key = Fulfilled false).
  { intros response Hf Hok.
    unfold OpenAI.validateApiKey, OpenAI.models_list.
    fold request. rewrite Hf, Hok. reflexivity. }
  unfold OpenAI.validateApiKey. fold listing.
  repeat split.
  - intros reason. destruct listing; discriminate.
  - destruct listing; [eauto|discriminate].
  - intros [models H]. rewrite H. reflexivity.
  - destruct listing; [discriminate|eauto].
  - intros [reason H]. rewrite H. reflexivity.
  - intros reason Hf. subst listing. unfold OpenAI.models_list.
    fold request. rewrite Hf. reflexivity.
  - exact Hbad.
  - intros response Hf Hs. apply (Hbad response Hf).
    unfold ok. rewrite Hs. reflexivity.
Qed.

Lemma validateApiKey_settles_witness :
  OpenAI.validateApiKey (alwaysResponds incorrectKeyResponse) (js "bad-key")
  = Fulfilled false.
Proof.
  destruct (validateApiKey_settles (alwaysResponds incorrectKeyResponse)
                                   (js "bad-key"))
    as (_ & _ & _ & _ & _ & H401).
  apply (H401 incorrectKeyResponse); reflexivity.
Defined.

(** C2, at the response of the specification's example: a 401 whose body is
    [{"error":{"message":"Incorrect API key"}}] makes
    [chat.completions.create] reject with the message "Incorrect API key";
    the handler of [sendMessage] finds none of its markers in that message
    and appends it as it is, so the reply does not carry the "Invalid API
    key" text. *)
Theorem incorrect_key_reply_is_raw
        fetch numberToString toStringError key options model now :
  fetch (OpenAI.completionsRequest (OpenAI.createOpenAI key) options)
    = Fulfilled incorrectKeyResponse →
  ∃ error,
    OpenAI.chat_completions_create fetch numberToString toStringError
      (OpenAI.createOpenAI key) options = Rejected error ∧
    e_message error = js "Incorrect API key" ∧
    ChatScreen.userFacingError model error = js "Incorrect API key" ∧
    JsString.startsWith (ChatScreen.userFacingError model error)
                        (js "Invalid API key") = false ∧
    ChatScreen.errorReply model now error =
      {| m_id := JsString.ofZ (now + 1);
         m_role := assistant;
         m_content :=
           content_string
             (ChatScreen.warningSign ++ js " Error: Incorrect API key") |}.
Proof.
  intros Hf. unfold OpenAI.chat_completions_create. rewrite Hf.
  eexists. split; [reflexivity|].
  repeat split.
Qed.

Lemma incorrect_key_reply_is_raw_witness :
  ∃ error,
    OpenAI.chat_completions_create (alwaysResponds incorrectKeyResponse)
      integersOnly sampleToStringError (OpenAI.createOpenAI (js "bad-key"))
      screenOptions
    = Rejected error ∧
    e_message error = js "Incorrect API key" ∧
    ChatScreen.userFacingError (js "gpt-4o-mini") error
    = js "Incorrect API key".
Proof.
  destruct (incorrect_key_reply_is_raw
              (alwaysResponds incorrectKeyResponse) integersOnly
              sampleToStringError
              (js "bad-key") screenOptions (js "gpt-4o-mini") 1700000000000
              eq_refl)
    as (error & H1 & H2 & H3 & _).
  exists error. auto.
Defined.

(** The sibling path: a 401 without a JSON error body is reported as
    "HTTP 401: Unauthorized", in which the handler finds its marker. *)
Lemma bare_unauthorized_reply
      fetch numberToString toStringError key options model :
  fetch (OpenAI.completionsRequest (OpenAI.createOpenAI key) options)
    = Fulfilled bareUnauthorizedResponse →
  ∃ error,
    OpenAI.chat_completions_create fetch numberToString toStringError
      (OpenAI.createOpenAI key) options = Rejected error ∧
    e_message error = js "HTTP 401: Unauthorized" ∧
    ChatScreen.userFacingError model error
    = js "Invalid API key. Please check your API key and try again.".
Proof.
  intros Hf. unfold OpenAI.chat_completions_create. rewrite Hf.
  eexists. split; [reflexivity|].
  split; reflexivity.
Qed.

(** ** Further properties of the store *)

Section StoreMore.

Lemma patchLast_lookup content messages i :
  patchLast content messages !! i =
  if decide (i + 1 = length messages)
  then withContent content <$> messages !! i
  else messages !! i.
Proof.
  unfold patchLast.
  destruct (decide (0 < length messages)) as [Hpos|Hz].
  - destruct (messages !! (length messages - 1)) as [lastMsg|] eqn:Hlast.
    + destruct (decide (i + 1 = length messages)) as [Hi|Hi].
      * replace (length messages - 1) with i in * by lia.
        rewrite list_lookup_insert_eq by lia. rewrite Hlast. reflexivity.
      * rewrite list_lookup_insert_ne by lia. reflexivity.
    + apply lookup_ge_None in Hlast. lia.
  - destruct messages; [|simpl in Hz; lia].
    destruct (decide _); reflexivity.
Qed.

Lemma replaceById_lookup updated prev i :
  replaceById updated prev !! i =
  (λ c, if decide (c_id c = c_id updated) then updated else c) <$> prev !! i.
Proof.
  unfold replaceById. change (map ?f ?l) with (f <$> l).
  apply list_lookup_fmap.
Qed.

End StoreMore.

(** X1: [updateLastMessage] on a store with a current conversation keeps
    its identifier, title, model and number of messages, keeps every
    message but the last as it is, and turns the last message into one with
    the same identifier and role and the new content; on a conversation
    without messages it changes no message. *)
Theorem updateLastMessage_patches_only_last st cur content :
  currentConversation st = Some cur →
  ∃ cur',
    currentConversation (step st (UpdateLastMessage content)) = Some cur' ∧
    c_id cur' = c_id cur ∧ c_title cur' = c_title cur ∧
    c_model cur' = c_model cur ∧
    length (c_messages cur') = length (c_messages cur) ∧
    (∀ i m, c_messages cur !! i = Some m →
       c_messages cur' !! i =
       Some (if decide (i + 1 = length (c_messages cur))
             then {| m_id := m_id m; m_role := m_role m;
                     m_content := content |}
             else m)).
Proof.
  intros Hcur. simpl. unfold updateLastMessage. rewrite Hcur.
  eexists. split; [reflexivity|]. simpl.
  repeat split.
  - apply patchLast_length.
  - intros i m Hm. rewrite patchLast_lookup, Hm.
    destruct (decide _); reflexivity.
Qed.

Lemma updateLastMessage_patches_only_last_witness :
  ∃ cur',
    currentConversation
      (step (run [CreateConversation 1700000000000; AddMessage userHi;
                  AddMessage assistantHello] initialStore)
            (UpdateLastMessage (content_string (js "Hello again"))))
    = Some cur' ∧
    c_messages cur' =
      [userHi;
       {| m_id := js "1"; m_role := assistant;
          m_content := content_string (js "Hello again") |}].
Proof.
  destruct (updateLastMessage_patches_only_last
              (run [CreateConversation 1700000000000; AddMessage userHi;
                    AddMessage assistantHello] initialStore)
              _ (content_string (js "Hello again")) eq_refl)
    as (cur' & Hc & _ & _ & _ & Hlen & Hmsgs).
  exists cur'. split; [exact Hc|].
  pose proof (Hmsgs 0 userHi eq_refl) as H0.
  pose proof (Hmsgs 1 assistantHello eq_refl) as H1.
  simpl in Hlen, H0, H1.
  destruct (c_messages cur') as [|a [|b [|c l]]]; try discriminate Hlen.
  simpl in H0, H1. congruence.
Defined.

Section TitleStable.

(** A call that writes messages through a closure whose render saw a
    conversation with a message. *)
Lemma applyOp_keeps_title op snap prev cur :
  currentConversation snap = Some cur →
  c_messages cur ≠ [] →
  writesMessages op →
  ∃ cur',
    currentConversation (applyOp op snap prev) = Some cur' ∧
    c_messages cur' ≠ [] ∧
    c_title cur' = c_title cur ∧
    c_id cur' = c_id cur.
Proof.
  intros Hcur Hne Hop.
  destruct op; try contradiction; simpl.
  - unfold addMessage. rewrite Hcur.
    eexists. split; [reflexivity|]. simpl.
    split; [intros H; apply app_eq_nil in H as [_ H]; discriminate H|].
    split; [|reflexivity].
    rewrite decide_False; [reflexivity|].
    intros [Hl _]. destruct (c_messages cur); [congruence|discriminate Hl].
  - unfold updateLastMessage. rewrite Hcur.
    eexists. split; [reflexivity|]. simpl.
    split; [|split; reflexivity].
    intros H. apply (f_equal length) in H.
    rewrite patchLast_length in H.
    destruct (c_messages cur); [congruence|discriminate H].
Qed.

Lemma run_keeps_title ops : ∀ st cur,
  currentConversation st = Some cur →
  c_messages cur ≠ [] →
  Forall writesMessages ops →
  ∃ cur',
    currentConversation (run ops st) = Some cur' ∧
    c_title cur' = c_title cur ∧
    c_id cur' = c_id cur.
Proof.
  induction ops as [|op ops IH]; intros st cur Hcur Hne Hops.
  - exists cur. auto.
  - apply Forall_cons in Hops as [Hop Hops].
    destruct (applyOp_keeps_title op st st cur Hcur Hne Hop)
      as (c1 & Hc1 & Hne1 & Ht1 & Hid1).
    destruct (IH _ _ Hc1 Hne1 Hops) as (c2 & Hc2 & Ht2 & Hid2).
    exists c2. rewrite run_cons. split; [exact Hc2|]. split; congruence.
Qed.

End TitleStable.

(** X2: a call of [addMessage] or [updateLastMessage] whose closure reads
    a current conversation that holds a message never derives a title:
    through whatever render's closure it is made, and whatever the store
    is by then, the current conversation it leaves carries the title and
    the identifier that closure read.  So along calls that each go through
    the latest render the title stays what it was; a call through an older
    closure brings back the title that older render had. *)
Theorem title_fixed_once_nonempty :
  (∀ op snap prev cur,
     currentConversation snap = Some cur →
     c_messages cur ≠ [] →
     writesMessages op →
     ∃ cur',
       currentConversation (applyOp op snap prev) = Some cur' ∧
       c_title cur' = c_title cur ∧
       c_id cur' = c_id cur) ∧
  (∀ ops st cur,
     currentConversation st = Some cur →
     c_messages cur ≠ [] →
     Forall writesMessages ops →
     ∃ cur',
       currentConversation (run ops st) = Some cur' ∧
       c_title cur' = c_title cur ∧
       c_id cur' = c_id cur).
Proof.
  split.
  - intros op snap prev cur Hcur Hne Hop.
    destruct (applyOp_keeps_title op snap prev cur Hcur Hne Hop)
      as (cur' & Hc & _ & Ht & Hid).
    exists cur'. auto.
  - intros ops. apply run_keeps_title.
Qed.

Lemma title_fixed_once_nonempty_witness :
  ∃ cur',
    currentConversation
      (run [AddMessage userLongQuestion;
            UpdateLastMessage (content_string (js "Another title?"))]
           (run [CreateConversation 1700000000000; AddMessage userHi]
                initialStore))
    = Some cur' ∧
    c_title cur' = js "Hi".
Proof.
  destruct title_fixed_once_nonempty as [_ H].
  destruct (H [AddMessage userLongQuestion;
               UpdateLastMessage (content_string (js "Another title?"))]
              (run [CreateConversation 1700000000000; AddMessage userHi]
                   initialStore)
              _ eq_refl)
    as (cur' & Hc & Ht & _).
  - discriminate.
  - repeat constructor.
  - exists cur'. split; [exact Hc|exact Ht].
Defined.

(** X3: [addMessage], [updateLastMessage] and [clearCurrentConversation]
    keep the collection's length and leave every entry whose identifier is
    not the current conversation's where and what it was; without a current
    conversation they change nothing at all. *)
Theorem rewrite_touches_current_id_only st op :
  rewritesCurrent op →
  match currentConversation st with
  | None => step st op = st
  | Some cur =>
      length (conversations (step st op)) = length (conversations st) ∧
      selectedModel (step st op) = selectedModel st ∧
      ∀ i c, conversations st !! i = Some c → c_id c ≠ c_id cur →
             conversations (step st op) !! i = Some c
  end.
Proof.
  intros Hop.
  destruct op; try contradiction; simpl;
    unfold addMessage, updateLastMessage, clearCurrentConversation;
    destruct (currentConversation st) as [cur|]; try reflexivity; simpl;
    (split; [apply length_map|]); (split; [reflexivity|]);
    intros i c Hc Hne; rewrite replaceById_lookup, Hc; simpl;
    rewrite decide_False by exact Hne; reflexivity.
Qed.

Lemma rewrite_touches_current_id_only_witness :
  let st := run [CreateConversation 1700000000000; AddMessage userHi;
                 CreateConversation 1700000000001] initialStore in
  conversations (step st (AddMessage userLongQuestion)) !! 1
  = conversations st !! 1.
Proof.
  intros st.
  pose proof (rewrite_touches_current_id_only st (AddMessage userLongQuestion) I)
    as H.
  change (currentConversation st) with
    (Some {| c_id := js "1700000000001"; c_title := js "New Chat";
             c_messages := []; c_model := js "gpt-4o-mini" |}) in H.
  destruct H as (_ & _ & H).
  destruct (conversations st !! 1) as [c|] eqn:Hc; [|discriminate Hc].
  rewrite (H 1 c Hc); [reflexivity|].
  vm_compute in Hc. injection Hc as <-. vm_compute. discriminate.
Defined.

Section DeleteSelect.

Lemma List_filter_all {A} (f : A → bool) (l : list A) :
  (∀ x, x ∈ l → f x = true) → List.filter f l = l.
Proof.
  induction l as [|x l IH]; intros H; simpl; [reflexivity|].
  rewrite (H x) by left. f_equal. apply IH.
  intros y Hy. apply H. right. exact Hy.
Qed.

Lemma elem_of_ids c st : c ∈ conversations st → c_id c ∈ ids st.
Proof.
  intros H. unfold ids. change (map ?f ?l) with (f <$> l).
  apply list_elem_of_fmap_2, H.
Qed.

Lemma findById_first id cs conv :
  findById id cs = Some conv →
  ∃ i, cs !! i = Some conv ∧
       ∀ j c, j < i → cs !! j = Some c → c_id c ≠ id.
Proof.
  unfold findById.
  induction cs as [|x cs IH]; simpl; [discriminate|].
  destruct (bool_decide (c_id x = id)) eqn:Hx.
  - intros [= <-]. exists 0. split; [reflexivity|]. intros j c Hj. lia.
  - intros H. destruct (IH H) as (i & Hi & Hbefore).
    exists (S i). split; [exact Hi|].
    intros [|j] c Hj Hc.
    + injection Hc as <-. apply bool_decide_eq_false in Hx. exact Hx.
    + apply (Hbefore j c); [lia|exact Hc].
Qed.

End DeleteSelect.

(** X4: in a store whose current conversation, if any, is in the
    collection, [deleteConversation] of an identifier that no conversation
    carries changes nothing. *)
Theorem delete_unknown_id_changes_nothing st id :
  currentInCollection st →
  id ∉ ids st →
  step st (DeleteConversation id) = st.
Proof.
  intros Hinv Hid. simpl. unfold deleteConversation.
  destruct st as [cs cur sel]. simpl in *. f_equal.
  - apply List_filter_all. intros c Hc.
    apply negb_true_iff, bool_decide_eq_false. intros E. apply Hid.
    rewrite <- E. apply (elem_of_ids c (mkStore cs cur sel)), Hc.
  - destruct cur as [c|]; [|reflexivity]. simpl.
    rewrite bool_decide_eq_false_2; [reflexivity|].
    intros E. apply Hid. rewrite <- E.
    apply (elem_of_ids c (mkStore cs (Some c) sel)), Hinv. reflexivity.
Qed.

Lemma delete_unknown_id_changes_nothing_witness :
  step (run sampleTrace initialStore) (DeleteConversation (js "42"))
  = run sampleTrace initialStore.
Proof.
  apply (delete_unknown_id_changes_nothing (run sampleTrace initialStore)).
  - apply run_currentInCollection. intros c H. discriminate H.
  - vm_compute. intros H.
    repeat (apply elem_of_cons in H as [H|H]; [discriminate H|]).
    inversion H.
Defined.

(** X5: [selectConversation] of an identifier carried in the collection
    makes the first conversation with that identifier current and its model
    the selected one, the collection staying as it is; a conversation
    created next carries that model. *)
Theorem select_adopts_first_match st id :
  id ∈ ids st →
  ∃ i conv,
    conversations st !! i = Some conv ∧
    c_id conv = id ∧
    (∀ j c, j < i → conversations st !! j = Some c → c_id c ≠ id) ∧
    currentConversation (step st (SelectConversation id)) = Some conv ∧
    selectedModel (step st (SelectConversation id)) = c_model conv ∧
    conversations (step st (SelectConversation id)) = conversations st ∧
    ∀ now,
      c_model <$> currentConversation
                    (run [SelectConversation id; CreateConversation now] st)
      = Some (c_model conv).
Proof.
  intros Hid. simpl. unfold selectConversation.
  destruct (findById id (conversations st)) as [conv|] eqn:Hf.
  - destruct (findById_first _ _ _ Hf) as (i & Hi & Hbefore).
    apply findById_Some in Hf as [_ Hcid].
    exists i, conv. repeat split; auto.
  - exfalso. unfold ids in Hid. change (map ?f ?l) with (f <$> l) in Hid.
    apply list_elem_of_fmap in Hid as (c & -> & Hc).
    rewrite findById_None in Hf. exact (Hf c Hc eq_refl).
Qed.

Lemma select_adopts_first_match_witness :
  ∃ conv,
    currentConversation
      (step (run [CreateConversation 1700000000000;
                  SetSelectedModel (js "gpt-4o");
                  CreateConversation 1700000000001] initialStore)
            (SelectConversation (js "1700000000000"))) = Some conv ∧
    selectedModel
      (step (run [CreateConversation 1700000000000;
                  SetSelectedModel (js "gpt-4o");
                  CreateConversation 1700000000001] initialStore)
            (SelectConversation (js "1700000000000"))) = c_model conv.
Proof.
  destruct (select_adopts_first_match
              (run [CreateConversation 1700000000000;
                    SetSelectedModel (js "gpt-4o");
                    CreateConversation 1700000000001] initialStore)
              (js "1700000000000"))
    as (i & conv & _ & _ & _ & Hc & Hm & _).
  - vm_compute. right. left.
  - exists conv. split; [exact Hc|exact Hm].
Defined.

(** X6: how the current conversation comes and goes.  Through whatever
    closure a call is made, a store without a current conversation gets
    one only from [createConversation], from [selectConversation], or from
    an [addMessage], [updateLastMessage] or [clearCurrentConversation]
    whose closure still read one; and a store with a current conversation
    loses it only to a [deleteConversation] of the identifier of the
    conversation that closure read.  For a call through the latest render
    this leaves [createConversation] and [selectConversation] on one side
    and [deleteConversation] of the current conversation's own identifier
    on the other. *)
Theorem current_presence_transitions op snap prev :
  (currentConversation prev = None →
   is_Some (currentConversation (applyOp op snap prev)) →
   (∃ now, op = CreateConversation now) ∨
   (∃ id, op = SelectConversation id) ∨
   (rewritesCurrent op ∧ is_Some (currentConversation snap))) ∧
  (∀ cur, currentConversation prev = Some cur →
   currentConversation (applyOp op snap prev) = None →
   ∃ read, currentConversation snap = Some read ∧
           op = DeleteConversation (c_id read)) ∧
  (currentConversation prev = None →
   is_Some (currentConversation (step prev op)) →
   (∃ now, op = CreateConversation now) ∨ (∃ id, op = SelectConversation id)) ∧
  (∀ cur, currentConversation prev = Some cur →
   currentConversation (step prev op) = None →
   op = DeleteConversation (c_id cur)).
Proof.
  assert (Hin : ∀ snap',
    currentConversation prev = None →
    is_Some (currentConversation (applyOp op snap' prev)) →
    (∃ now, op = CreateConversation now) ∨
    (∃ id, op = SelectConversation id) ∨
    (rewritesCurrent op ∧ is_Some (currentConversation snap'))).
  { intros snap' Hnone [c Hc].
    destruct op; simpl in Hc; eauto;
      unfold addMessage, updateLastMessage, clearCurrentConversation,
             deleteConversation in Hc;
      try (destruct (currentConversation snap') as [r|] eqn:Hr;
           [right; right; split; [exact I|eauto]|congruence]).
    - simpl in Hc. destruct (currentHasId id (currentConversation snap'));
        congruence.
    - simpl in Hc. congruence. }
  assert (Hout : ∀ snap' cur,
    currentConversation prev = Some cur →
    currentConversation (applyOp op snap' prev) = None →
    ∃ read, currentConversation snap' = Some read ∧
            op = DeleteConversation (c_id read)).
  { intros snap' cur Hcur Hnone.
    destruct op; simpl in Hnone;
      unfold addMessage, updateLastMessage, clearCurrentConversation,
             selectConversation, deleteConversation in Hnone;
      try (destruct (currentConversation snap') as [r|];
           simpl in Hnone; congruence).
    - destruct (findById id (conversations snap')); simpl in Hnone; congruence.
    - simpl in Hnone.
      destruct (currentConversation snap') as [r|]; simpl in Hnone;
        [|congruence].
      destruct (bool_decide (c_id r = id)) eqn:E; [|congruence].
      apply bool_decide_eq_true in E. exists r. split; congruence. }
  split; [apply Hin|]. split; [apply Hout|]. split.
  - intros Hnone Hsome.
    destruct (Hin prev Hnone Hsome) as [H|[H|[_ [c Hc]]]]; auto.
    congruence.
  - intros cur Hcur Hnone.
    destruct (Hout prev cur Hcur Hnone) as (read & Hread & ->). congruence.
Qed.

Lemma current_presence_transitions_witness :
  currentConversation
    (step (run [CreateConversation 1700000000000] initialStore)
          (DeleteConversation (js "1700000000000"))) = None ∧
  DeleteConversation (js "1700000000000")
  = DeleteConversation
      (c_id {| c_id := js "1700000000000"; c_title := js "New Chat";
               c_messages := []; c_model := js "gpt-4o-mini" |}).
Proof.
  split; [reflexivity|].
  destruct (current_presence_transitions
              (DeleteConversation (js "1700000000000"))
              (run [CreateConversation 1700000000000] initialStore)
              (run [CreateConversation 1700000000000] initialStore))
    as (_ & _ & _ & H).
  apply (H _ eq_refl eq_refl).
Defined.

(** X7: [clearCurrentConversation] makes the conversation fresh again,
    through whatever closure it is called: an [addMessage] of a
    user-authored message whose closure reads the cleared conversation
    leaves the current conversation with that message alone and the title
    derived from it, whatever the title and the messages were before the
    clearing.  Along calls that each go through the latest render, the
    messages added after a clearing are then the conversation's messages
    and the first of them, when user-authored, gives the title. *)
Theorem clear_then_retitle :
  (∀ snap prev cur m snap' prev',
     currentConversation snap = Some cur →
     currentConversation snap'
       = currentConversation (applyOp ClearCurrentConversation snap prev) →
     m_role m = user →
     ∃ cur',
       currentConversation (applyOp (AddMessage m) snap' prev') = Some cur' ∧
       c_id cur' = c_id cur ∧
       c_messages cur' = [m] ∧
       c_title cur' = titleOf m) ∧
  (∀ st cur m msgs,
     currentConversation st = Some cur →
     m_role m = user →
     ∃ cur',
       currentConversation
         (run (ClearCurrentConversation :: map AddMessage (m :: msgs)) st)
       = Some cur' ∧
       c_id cur' = c_id cur ∧
       c_messages cur' = m :: msgs ∧
       c_title cur' = titleOf m).
Proof.
  split.
  - intros snap prev cur m snap' prev' Hcur Hread Hrole.
    simpl in Hread. unfold clearCurrentConversation in Hread.
    rewrite Hcur in Hread. simpl in Hread.
    simpl. unfold addMessage. rewrite Hread.
    eexists. split; [reflexivity|]. simpl.
    split; [reflexivity|]. split; [reflexivity|].
    rewrite decide_True by (split; [reflexivity|exact Hrole]).
    apply deriveTitle_messageText.
  - intros st cur m msgs Hcur Hrole. rewrite run_cons.
    assert (Hclr : currentConversation (step st ClearCurrentConversation)
                   = Some {| c_id := c_id cur; c_title := js "New Chat";
                             c_messages := []; c_model := c_model cur |}).
    { simpl. unfold clearCurrentConversation. rewrite Hcur. reflexivity. }
    destruct (addMessages_current (m :: msgs) _ _ Hclr)
      as (cur' & Hc & Hid & _ & Hmsgs & Ht & _).
    exists cur'. split; [exact Hc|]. split; [exact Hid|].
    split; [exact Hmsgs|].
    rewrite Ht. simpl. rewrite decide_True by exact Hrole. reflexivity.
Qed.

Lemma clear_then_retitle_witness :
  ∃ cur',
    currentConversation
      (run (ClearCurrentConversation :: map AddMessage [userLongQuestion])
           (run [CreateConversation 1700000000000; AddMessage userHi]
                initialStore))
    = Some cur' ∧
    c_title cur' = js "Which of the five options is t...".
Proof.
  destruct clear_then_retitle as [_ H].
  destruct (H (run [CreateConversation 1700000000000; AddMessage userHi]
                   initialStore)
              _ userLongQuestion [] eq_refl eq_refl)
    as (cur' & Hc & _ & _ & Ht).
  exists cur'. split; [exact Hc|exact Ht].
Defined.

(** ** Trimming and splitting *)

Section Text.

Lemma trimStart_suffix s : ∃ ws, s = ws ++ JsText.trimStart s ∧
                                 forallb JsText.isWhiteSpace ws = true.
Proof.
  induction s as [|c s (ws & Hs & Hws)]; simpl.
  - exists []. split; reflexivity.
  - destruct (JsText.isWhiteSpace c) eqn:Hc.
    + exists (c :: ws). simpl. rewrite Hc, Hws. split; [congruence|reflexivity].
    + exists []. split; reflexivity.
Qed.

Lemma trimStart_head s c :
  head (JsText.trimStart s) = Some c → JsText.isWhiteSpace c = false.
Proof.
  induction s as [|x s IH]; simpl; [discriminate|].
  destruct (JsText.isWhiteSpace x) eqn:Hx; [exact IH|].
  simpl. intros [= <-]. exact Hx.
Qed.

Lemma trimStart_fixed s :
  (∀ c, head s = Some c → JsText.isWhiteSpace c = false) →
  JsText.trimStart s = s.
Proof.
  destruct s as [|x s]; simpl; [reflexivity|].
  intros H. rewrite (H x eq_refl). reflexivity.
Qed.

Lemma trimStart_nil s :
  JsText.trimStart s = [] ↔ forallb JsText.isWhiteSpace s = true.
Proof.
  induction s as [|x s IH]; simpl; [tauto|].
  destruct (JsText.isWhiteSpace x); simpl; [exact IH|].
  split; discriminate.
Qed.

Lemma trimStart_last s c :
  last (JsText.trimStart s) = Some c → last s = Some c.
Proof.
  destruct (trimStart_suffix s) as (ws & Hs & _).
  intros H. rewrite Hs, last_app, H. reflexivity.
Qed.

Lemma head_rev {A} (l : list A) : head (rev l) = last l.
Proof.
  destruct l as [|x l] using rev_ind; [reflexivity|].
  rewrite rev_app_distr, last_snoc. reflexivity.
Qed.

Lemma last_rev {A} (l : list A) : last (rev l) = head l.
Proof. rewrite <- head_rev, rev_involutive. reflexivity. Qed.

(** What [trim] returns neither starts nor ends with white space. *)
Lemma trim_ends s c :
  head (JsText.trim s) = Some c ∨ last (JsText.trim s) = Some c →
  JsText.isWhiteSpace c = false.
Proof.
  unfold JsText.trim, JsText.trimEnd. rewrite head_rev, last_rev.
  intros [H|H].
  - apply trimStart_last in H. rewrite last_rev in H.
    apply trimStart_head in H. exact H.
  - apply trimStart_head in H. exact H.
Qed.

Lemma forallb_rev {A} (f : A → bool) (l : list A) :
  forallb f (rev l) = forallb f l.
Proof.
  induction l as [|x l IH]; simpl; [reflexivity|].
  rewrite forallb_app, IH. simpl. rewrite andb_true_r. apply andb_comm.
Qed.

(** A string trims to nothing exactly when it is all white space. *)
Lemma trim_nil s :
  JsText.trim s = [] ↔ forallb JsText.isWhiteSpace s = true.
Proof.
  unfold JsText.trim, JsText.trimEnd.
  destruct (trimStart_suffix s) as (ws & Hs & Hws).
  split.
  - intros H. apply (f_equal (@rev N)) in H.
    rewrite rev_involutive in H. simpl in H.
    apply trimStart_nil in H. rewrite forallb_rev in H.
    rewrite Hs, forallb_app, Hws, H. reflexivity.
  - intros H. apply trimStart_nil in H. rewrite H. reflexivity.
Qed.

Lemma isBlank_false s c :
  c ∈ s → JsText.isWhiteSpace c = false → JsText.isBlank s = false.
Proof.
  intros Hc Hws. unfold JsText.isBlank.
  apply bool_decide_eq_false. rewrite trim_nil. intros H.
  rewrite forallb_forall in H.
  rewrite list_elem_of_In in Hc. rewrite (H c Hc) in Hws. discriminate Hws.
Qed.

Lemma trim_idem s : JsText.trim (JsText.trim s) = JsText.trim s.
Proof.
  assert (Hs : JsText.trimStart (JsText.trim s) = JsText.trim s).
  { apply trimStart_fixed. intros c Hc. apply (trim_ends s c). left. exact Hc. }
  unfold JsText.trim at 1. rewrite Hs.
  unfold JsText.trimEnd.
  rewrite (trimStart_fixed (rev (JsText.trim s))).
  - apply rev_involutive.
  - intros c Hc. rewrite head_rev in Hc. apply (trim_ends s c). right. exact Hc.
Qed.

Lemma split_nonempty sep s : JsText.split sep s ≠ [].
Proof.
  destruct s as [|c s]; simpl; [discriminate|].
  destruct (N.eqb c sep); [discriminate|].
  destruct (JsText.split sep s); discriminate.
Qed.

(** No piece holds the separator. *)
Lemma split_pieces sep s piece :
  piece ∈ JsText.split sep s → sep ∉ piece.
Proof.
  revert piece. induction s as [|c s IH]; simpl; intros piece Hp.
  - apply list_elem_of_singleton in Hp as ->. apply not_elem_of_nil.
  - destruct (N.eqb_spec c sep) as [->|Hne].
    + apply elem_of_cons in Hp as [->|Hp]; [apply not_elem_of_nil|auto].
    + destruct (JsText.split sep s) as [|p ps] eqn:Hsplit.
      * destruct (split_nonempty _ _ Hsplit).
      * apply elem_of_cons in Hp as [->|Hp].
        -- intros [E|Hin]%elem_of_cons; [congruence|].
           apply (IH p); [left|exact Hin].
        -- apply IH. right. exact Hp.
Qed.

(** Every code unit other than the separator lands in some piece. *)
Lemma split_covers sep s c :
  c ∈ s → c ≠ sep → ∃ piece, piece ∈ JsText.split sep s ∧ c ∈ piece.
Proof.
  induction s as [|x s IH]; intros Hc Hne; [inversion Hc|].
  simpl.
  destruct (N.eqb_spec x sep) as [->|Hx].
  - apply elem_of_cons in Hc as [->|Hc]; [congruence|].
    destruct (IH Hc Hne) as (piece & Hp & Hin).
    exists piece. split; [right; exact Hp|exact Hin].
  - destruct (JsText.split sep s) as [|p ps] eqn:Hsplit.
    + destruct (split_nonempty _ _ Hsplit).
    + apply elem_of_cons in Hc as [->|Hc].
      * exists (x :: p). split; left.
      * destruct (IH Hc Hne) as (piece & Hp & Hin).
        apply elem_of_cons in Hp as [->|Hp].
        -- exists (x :: p). split; [left|right; exact Hin].
        -- exists piece. split; [right; exact Hp|exact Hin].
Qed.

End Text.

(** ** Properties of the chat screen *)

(** X8: every entry of [derivedAnswers] is a line of an assistant message
    with string content: it holds no line feed and is not blank.  User
    messages and part-list contents contribute nothing. *)
Theorem derivedAnswers_are_answer_lines cur a :
  a ∈ Answers.derivedAnswers cur →
  JsText.isBlank a = false ∧
  (JsText.lineFeed ∉ a) ∧
  (∃ conv msg s,
     cur = Some conv ∧ msg ∈ c_messages conv ∧
     m_role msg = assistant ∧ m_content msg = content_string s ∧
     a ∈ JsText.split JsText.lineFeed s).
Proof.
  destruct cur as [conv|]; simpl; [|intros H; inversion H].
  rewrite list_elem_of_In, <- in_rev, in_flat_map.
  intros (msg & Hmsg & Ha).
  apply filter_In in Hmsg as [Hmsg Htext].
  unfold Answers.isTextAnswer in Htext. unfold Answers.answerLines in Ha.
  destruct (m_role msg) eqn:Hrole; [discriminate|].
  destruct (m_content msg) as [s|parts] eqn:Hcontent; [|discriminate].
  apply filter_In in Ha as [Ha Hblank].
  apply negb_true_iff in Hblank.
  rewrite <- list_elem_of_In in Ha. rewrite <- list_elem_of_In in Hmsg.
  split; [exact Hblank|]. split; [exact (split_pieces _ _ _ Ha)|].
  exists conv, msg, s. auto.
Qed.

Lemma derivedAnswers_are_answer_lines_witness :
  JsText.isBlank (js "21 - B    [905]") = false ∧
  JsText.lineFeed ∉ js "21 - B    [905]".
Proof.
  destruct (derivedAnswers_are_answer_lines
              (Some {| c_id := js "1"; c_title := js "New Chat";
                       c_messages :=
                         [userHi;
                          {| m_id := js "2"; m_role := assistant;
                             m_content :=
                               content_string
                                 (js "21 - B    [905]" ++ [10%N; 32%N; 10%N]
                                  ++ js "22 - C    [17]") |}];
                       c_model := js "gpt-4o-mini" |})
              (js "21 - B    [905]"))
    as (H1 & H2 & _).
  - vm_compute. right. left.
  - split; [exact H1|exact H2].
Defined.

(** X9: the answers are listed newest first: a message added to the
    conversation puts its non-blank lines, last line first, in front of
    the answers there were when it is an assistant message with string
    content, and changes nothing otherwise. *)
Theorem derivedAnswers_newest_first conv m :
  Answers.derivedAnswers
    (Some (withMessages (c_messages conv ++ [m]) conv))
  = (if Answers.isTextAnswer m then rev (Answers.answerLines m) else [])
    ++ Answers.derivedAnswers (Some conv).
Proof.
  simpl. rewrite List.filter_app. simpl.
  destruct (Answers.isTextAnswer m).
  - rewrite flat_map_app, rev_app_distr. simpl.
    rewrite app_nil_r. reflexivity.
  - rewrite app_nil_r. reflexivity.
Qed.

(** X10: [removeImage(index)] with an index inside the list removes
    exactly that image, those before it keeping their place and those
    after it moving up by one; with an index outside it changes nothing. *)
Theorem removeImage_removes_one index images :
  (index < length images →
   length (Images.removeImage index images) = length images - 1 ∧
   ∀ j, Images.removeImage index images !! j =
        if decide (j < index) then images !! j else images !! S j) ∧
  (length images ≤ index → Images.removeImage index images = images).
Proof.
  unfold Images.removeImage. split.
  - intros Hlt. split.
    + apply length_delete, lookup_lt_is_Some, Hlt.
    + intros j. destruct (decide (j < index)) as [Hj|Hj].
      * apply list_lookup_delete_lt, Hj.
      * apply list_lookup_delete_ge. lia.
  - revert index. induction images as [|x images IH]; intros [|index] H;
      simpl in *; try reflexivity; try lia.
    f_equal. apply IH. lia.
Qed.

Lemma removeImage_removes_one_witness :
  Images.removeImage 1 [js "a"; js "b"; js "c"] = [js "a"; js "c"] ∧
  Images.removeImage 3 [js "a"; js "b"; js "c"] = [js "a"; js "b"; js "c"].
Proof.
  destruct (removeImage_removes_one 3 [js "a"; js "b"; js "c"]) as [_ Hout].
  split; [reflexivity|]. apply Hout. simpl. lia.
Defined.

Section Sending.

Lemma contentParts_texts scr :
  omap partText (Send.contentParts scr) =
  if JsText.isBlank (Send.input scr) then []
  else [JsText.trim (Send.input scr)].
Proof.
  unfold Send.contentParts.
  assert (Himg : ∀ urls,
            omap partText
              (map (λ u, image_url_part u (Some high)) urls) = []).
  { induction urls as [|u urls IH]; [reflexivity|exact IH]. }
  rewrite omap_app, Himg, app_nil_r.
  destruct (JsText.isBlank (Send.input scr)); reflexivity.
Qed.

Lemma contentParts_urls scr :
  omap partUrl (Send.contentParts scr) = Send.selectedImages scr.
Proof.
  unfold Send.contentParts. rewrite omap_app.
  assert (Himg : ∀ urls,
            omap partUrl
              (map (λ u, image_url_part u (Some high)) urls) = urls).
  { induction urls as [|u urls IH]; [reflexivity|]. simpl.
    change (omap partUrl (map ?f urls)) with (omap partUrl (map f urls)).
    f_equal. exact IH. }
  rewrite Himg. destruct (JsText.isBlank (Send.input scr)); reflexivity.
Qed.

Lemma titleOf_userMessage now scr :
  titleOf (Send.userMessage now scr) =
  if JsText.isBlank (Send.input scr) then js "Image"
  else truncated30 (JsText.trim (Send.input scr)).
Proof.
  unfold titleOf, textContent. simpl.
  rewrite contentParts_texts.
  destruct (JsText.isBlank (Send.input scr)); reflexivity.
Qed.

End Sending.

(** X11: the content [sendMessage] builds, when it does not refuse, is
    never empty: its text parts are the trimmed input alone, which is not
    empty and neither starts nor ends with white space, or none when the
    input is blank, and its image parts are the selected images in their
    order. *)
Theorem contentParts_shape apiKey scr :
  Send.refuses apiKey scr = false →
  Send.contentParts scr ≠ [] ∧
  omap partUrl (Send.contentParts scr) = Send.selectedImages scr ∧
  (JsText.isBlank (Send.input scr) = true →
   omap partText (Send.contentParts scr) = []) ∧
  (JsText.isBlank (Send.input scr) = false →
   ∃ t, omap partText (Send.contentParts scr) = [t] ∧
        t = JsText.trim (Send.input scr) ∧ t ≠ [] ∧
        ∀ c, head t = Some c ∨ last t = Some c →
             JsText.isWhiteSpace c = false).
Proof.
  intros Href. unfold Send.refuses in Href.
  apply orb_false_iff in Href as [Href _].
  split; [|split; [apply contentParts_urls|split]].
  - intros Hnil.
    pose proof (contentParts_texts scr) as Ht.
    pose proof (contentParts_urls scr) as Hu.
    rewrite Hnil in Ht, Hu. simpl in Ht, Hu.
    destruct (JsText.isBlank (Send.input scr)); [|discriminate Ht].
    rewrite <- Hu in Href. discriminate Href.
  - intros Hb. rewrite contentParts_texts, Hb. reflexivity.
  - intros Hb. rewrite contentParts_texts, Hb.
    eexists. split; [reflexivity|]. split; [reflexivity|].
    split; [apply bool_decide_eq_false in Hb; exact Hb|].
    intros c. apply trim_ends.
Qed.

Lemma contentParts_shape_witness :
  Send.contentParts sampleScreen ≠ [] ∧
  omap partText (Send.contentParts sampleScreen) = [js "What is 2+2?"].
Proof.
  destruct (contentParts_shape (Some (js "sk-test")) sampleScreen eq_refl)
    as (Hne & _ & _ & Htext).
  split; [exact Hne|].
  destruct (Htext eq_refl) as (t & Ht & -> & _). exact Ht.
Defined.

(** X12: [sendMessage] does nothing when the input is blank and no image
    is selected, or when there is no key.  Otherwise, on a fresh current
    conversation, it clears the input and the selection, turns the loading
    flag on and leaves the conversation with the user message alone and the
    title of the trimmed input, cut to 30 characters, or "Image" when the
    input is blank. *)
Theorem press_on_fresh_conversation apiKey now scr st cur :
  currentConversation st = Some cur →
  isFresh cur →
  (Send.refuses apiKey scr = true →
   Send.press apiKey now scr st st = (scr, st)) ∧
  (Send.refuses apiKey scr = false →
   ∃ cur',
     Send.press apiKey now scr st st =
       ({| Send.input := []; Send.selectedImages := [];
           Send.isLoading := true |},
        step st (AddMessage (Send.userMessage now scr))) ∧
     currentConversation (step st (AddMessage (Send.userMessage now scr)))
       = Some cur' ∧
     c_messages cur' = [Send.userMessage now scr] ∧
     c_title cur' =
       (if JsText.isBlank (Send.input scr) then js "Image"
        else truncated30 (JsText.trim (Send.input scr)))).
Proof.
  intros Hcur [Htitle Hempty]. unfold Send.press. split.
  - intros ->. reflexivity.
  - intros ->.
    destruct (addMessage_current (Send.userMessage now scr) st cur Hcur)
      as (cur' & Hc & _ & _ & Hmsgs & Ht & _).
    exists cur'. split; [reflexivity|]. split; [exact Hc|].
    rewrite Hempty in Hmsgs, Ht. split; [exact Hmsgs|].
    rewrite Ht, decide_True by (split; reflexivity).
    apply titleOf_userMessage.
Qed.

Lemma press_on_fresh_conversation_witness :
  ∃ cur',
    currentConversation
      (snd (Send.press (Some (js "sk-test")) 1700000000005 sampleScreen
              (run [CreateConversation 1700000000000] initialStore)
              (run [CreateConversation 1700000000000] initialStore)))
    = Some cur' ∧
    c_title cur' = js "What is 2+2?".
Proof.
  destruct (press_on_fresh_conversation
              (Some (js "sk-test")) 1700000000005 sampleScreen
              (run [CreateConversation 1700000000000] initialStore)
              _ eq_refl (conj eq_refl eq_refl))
    as [_ H].
  destruct (H eq_refl) as (cur' & Hp & Hc & _ & Ht).
  exists cur'. rewrite Hp. split; [exact Hc|exact Ht].
Defined.

Section Replies.

Variable fetch : Request → Settled Response.
Variable numberToString : spec_float → jsstring.
Variable typeError : Send.Site → JsError.

Lemma formattedAnswer_shape completion answer :
  Send.formattedAnswer numberToString typeError completion = Fulfilled answer →
  ∃ text count, answer = text ++ js "    [" ++ count ++ js "]".
Proof.
  unfold Send.formattedAnswer, Send.orThrow.
  repeat match goal with
         | |- context [match ?x with _ => _ end] => destruct x
         end; intros [= <-]; eauto.
Qed.

(** Whatever the outcome, the reply is an assistant message with the
    identifier of its clock reading and a string content that holds a code
    unit which is not white space. *)
Lemma reply_shape key model parts now :
  ∃ s c,
    Send.reply fetch numberToString typeError key model parts now
    = {| m_id := JsString.ofZ (now + 1); m_role := assistant;
         m_content := content_string s |} ∧
    c ∈ s ∧ JsText.isWhiteSpace c = false.
Proof.
  assert (Herr : ∀ error,
            ∃ s c, ChatScreen.errorReply model now error
                   = {| m_id := JsString.ofZ (now + 1); m_role := assistant;
                        m_content := content_string s |} ∧
                   c ∈ s ∧ JsText.isWhiteSpace c = false).
  { intros error. eexists _, 9888%N.
    split; [reflexivity|]. split; [left|reflexivity]. }
  unfold Send.reply.
  destruct (OpenAI.chat_completions_create _ _ _ _ _) as [completion|error];
    [|apply Herr].
  destruct (Send.formattedAnswer _ _ completion) as [answer|error] eqn:Hf;
    [|apply Herr].
  destruct (formattedAnswer_shape _ _ Hf) as (text & count & ->).
  eexists _, 91%N. split; [reflexivity|]. split; [|reflexivity].
  rewrite elem_of_app. right. do 4 right. left.
Qed.

Lemma answerLines_nonempty m s c :
  m_content m = content_string s →
  c ∈ s → JsText.isWhiteSpace c = false →
  Answers.answerLines m ≠ [].
Proof.
  intros Hm Hc Hws. unfold Answers.answerLines. rewrite Hm.
  destruct (split_covers JsText.lineFeed s c Hc) as (piece & Hp & Hin).
  { intros ->. discriminate Hws. }
  intros Hnil.
  assert (Hf : piece ∈ List.filter (λ line, negb (JsText.isBlank line))
                                   (JsText.split JsText.lineFeed s)).
  { rewrite list_elem_of_In, filter_In, <- list_elem_of_In.
    split; [exact Hp|]. rewrite (isBlank_false piece c Hin Hws). reflexivity. }
  rewrite Hnil in Hf. inversion Hf.
Qed.

End Replies.

(** X13: when a send settles, its reply goes through the [addMessage] of
    the render in which the send was started.  Whatever the store has
    become meanwhile, the current conversation is then the one of that
    render with the reply appended, under its old title: what was added
    after that render, the user message of this very send included, is not
    carried over, and a conversation that was fresh at that render is left
    with the reply alone and the title "New Chat".  Every collection entry
    with that identifier becomes this conversation. *)
Theorem settle_rebuilds_from_press_time
        fetch numberToString typeError key model parts now snap prev cur :
  currentConversation snap = Some cur →
  let answer := Send.reply fetch numberToString typeError key model parts now in
  ∃ cur',
    currentConversation
      (Send.settle fetch numberToString typeError key model parts now
                   snap prev) = Some cur' ∧
    cur' = {| c_id := c_id cur; c_title := c_title cur;
              c_messages := c_messages cur ++ [answer];
              c_model := c_model cur |} ∧
    (∀ i c, conversations prev !! i = Some c →
       conversations
         (Send.settle fetch numberToString typeError key model parts now
                      snap prev) !! i
       = Some (if decide (c_id c = c_id cur) then cur' else c)).
Proof.
  intros Hcur answer.
  destruct (reply_shape fetch numberToString typeError key model parts now)
    as (s & c & Hreply & _).
  unfold Send.settle, addMessage. rewrite Hcur.
  fold answer. rewrite decide_False
    by (intros [_ Hrole]; subst answer; rewrite Hreply in Hrole;
        discriminate Hrole).
  eexists. split; [reflexivity|]. split; [reflexivity|].
  intros i x Hx. cbn [conversations]. rewrite replaceById_lookup, Hx.
  reflexivity.
Qed.

Lemma settle_rebuilds_from_press_time_witness :
  let snap := run [CreateConversation 1700000000000] initialStore in
  let pressed :=
    snd (Send.press (Some (js "sk-test")) 1700000000005 sampleScreen
                    snap snap) in
  c_messages <$> currentConversation pressed
    = Some [Send.userMessage 1700000000005 sampleScreen] ∧
  ∃ cur',
    currentConversation
      (Send.settle (alwaysResponds completionResponse) integersOnly
                   sampleTypeError (js "sk-test") (js "gpt-4o-mini")
                   (Send.contentParts sampleScreen) 1700000002000
                   snap pressed) = Some cur' ∧
    c_title cur' = js "New Chat" ∧
    c_messages cur' =
      [{| m_id := js "1700000002001"; m_role := assistant;
          m_content := content_string (js "21 - B    [905]") |}].
Proof.
  intros snap pressed. split; [reflexivity|].
  destruct (settle_rebuilds_from_press_time
              (alwaysResponds completionResponse) integersOnly sampleTypeError
              (js "sk-test") (js "gpt-4o-mini")
              (Send.contentParts sampleScreen) 1700000002000
              snap pressed _ eq_refl)
    as (cur' & Hc & -> & _).
  eexists. split; [exact Hc|]. split; reflexivity.
Defined.

(** X22: a reply that settles after its conversation was deleted brings
    that conversation back as the current one although the collection no
    longer holds it: the store is then out of step, whatever the current
    conversation was at that moment. *)
Theorem settle_after_delete_resurrects
        fetch numberToString typeError key model parts now snap prev cur :
  currentConversation snap = Some cur →
  (∀ c, c ∈ conversations prev → c_id c ≠ c_id cur) →
  let st := Send.settle fetch numberToString typeError key model parts now
                        snap prev in
  (∃ cur', currentConversation st = Some cur' ∧ c_id cur' = c_id cur) ∧
  conversations st = conversations prev ∧
  ¬ currentInCollection st.
Proof.
  intros Hcur Hgone st. subst st.
  unfold Send.settle, addMessage. rewrite Hcur.
  cbn [currentConversation conversations].
  assert (Hsame : ∀ updated, c_id updated = c_id cur →
            replaceById updated (conversations prev) = conversations prev).
  { intros updated Hid. unfold replaceById.
    rewrite <- (map_id (conversations prev)) at 2.
    apply map_ext_in. intros c Hc. rewrite <- list_elem_of_In in Hc.
    rewrite decide_False; [reflexivity|].
    rewrite Hid. apply Hgone, Hc. }
  split; [eexists; split; reflexivity|].
  split; [apply Hsame; reflexivity|].
  intros Hinv. specialize (Hinv _ eq_refl). cbn [conversations] in Hinv.
  rewrite Hsame in Hinv by reflexivity.
  apply (Hgone _ Hinv). reflexivity.
Qed.

Lemma settle_after_delete_resurrects_witness :
  let snap := run [CreateConversation 1700000000000] initialStore in
  let prev := step snap (DeleteConversation (js "1700000000000")) in
  currentConversation prev = None ∧
  ¬ currentInCollection
      (Send.settle (alwaysResponds completionResponse) integersOnly
                   sampleTypeError (js "sk-test") (js "gpt-4o-mini")
                   (Send.contentParts sampleScreen) 1700000002000
                   snap prev).
Proof.
  intros snap prev. split; [reflexivity|].
  destruct (settle_after_delete_resurrects
              (alwaysResponds completionResponse) integersOnly
              sampleTypeError (js "sk-test") (js "gpt-4o-mini")
              (Send.contentParts sampleScreen) 1700000002000
              snap prev _ eq_refl) as (_ & _ & H).
  - intros c Hc. inversion Hc.
  - exact H.
Defined.

(** X14: every settled send, failed or not, leaves at least one answer to
    show: the reply is an assistant message whose text has a line that is
    not blank, so [derivedAnswers] of the conversation it is added to is
    never empty. *)
Theorem settle_always_shows_an_answer
        fetch numberToString typeError key model parts now snap prev cur :
  currentConversation snap = Some cur →
  Answers.derivedAnswers
    (currentConversation
       (Send.settle fetch numberToString typeError key model parts now
                    snap prev)) ≠ [].
Proof.
  intros Hcur.
  destruct (reply_shape fetch numberToString typeError key model parts now)
    as (s & c & Hreply & Hc & Hws).
  unfold Send.settle, addMessage. rewrite Hcur. cbn [currentConversation].
  unfold Answers.derivedAnswers. cbn [c_messages].
  rewrite List.filter_app, flat_map_app, rev_app_distr, Hreply.
  cbn [List.filter Answers.isTextAnswer m_role m_content flat_map].
  rewrite app_nil_r.
  intros Hnil. apply app_eq_nil in Hnil as [Hnil _].
  apply (f_equal (@rev jsstring)) in Hnil. rewrite rev_involutive in Hnil.
  revert Hnil. apply (answerLines_nonempty _ s c); auto.
Qed.

Lemma settle_always_shows_an_answer_witness :
  Answers.derivedAnswers
    (currentConversation
       (Send.settle (alwaysResponds incorrectKeyResponse) integersOnly
                    sampleTypeError (js "sk-test") (js "gpt-4o-mini")
                    (Send.contentParts sampleScreen) 1700000002000
                    (run [CreateConversation 1700000000000] initialStore)
                    (run [CreateConversation 1700000000000] initialStore)))
  ≠ [].
Proof.
  apply (settle_always_shows_an_answer
           (alwaysResponds incorrectKeyResponse) integersOnly sampleTypeError
           (js "sk-test") (js "gpt-4o-mini") (Send.contentParts sampleScreen)
           1700000002000
           (run [CreateConversation 1700000000000] initialStore)
           (run [CreateConversation 1700000000000] initialStore)
           _ eq_refl).
Defined.

Section Parsed.

Lemma lookupLast_parse key members :
  Js.lookupLast key (map (λ '(k, m), (k, Json.parse m)) members)
  = Json.parse <$> lastMember key members.
Proof.
  induction members as [|[k m] members IH]; simpl; [reflexivity|].
  rewrite IH. destruct (lastMember key members); simpl; [reflexivity|].
  destruct (decide (k = key)); reflexivity.
Qed.

Lemma get_parsed_object members key :
  Send.get (Json.parse (Json.object members)) key
  = Some (default Js.undefined (Json.parse <$> lastMember key members)).
Proof. simpl. rewrite lookupLast_parse. reflexivity. Qed.

Lemma optGet_parsed_object members key :
  Js.optGet (Json.parse (Json.object members)) key
  = default Js.undefined (Json.parse <$> lastMember key members).
Proof. simpl. rewrite lookupLast_parse. reflexivity. Qed.

Lemma or_string s : Js.or (Js.str s) (Js.str []) = Js.str s.
Proof.
  unfold Js.or. simpl. destruct (bool_decide (s = [])) eqn:E; [|reflexivity].
  apply bool_decide_eq_true in E. subst s. reflexivity.
Qed.

Lemma formattedAnswer_completionWith numberToString typeError answer tokens j :
  completionWith answer tokens j →
  Send.formattedAnswer numberToString typeError (Json.parse j)
  = match shownTokens numberToString tokens with
    | Some count =>
        Fulfilled (JsText.trim answer ++ js "    [" ++ count ++ js "]")
    | None => Rejected (typeError Send.text_of_tokens)
    end.
Proof.
  intros (members & choice & choices & message & -> & Hch & Hmsg & Hco & ->).
  unfold Send.formattedAnswer.
  rewrite !get_parsed_object, Hch.
  cbn [Send.orThrow fmap option_fmap option_map default from_option id].
  change (Json.parse (Json.array (Json.object choice :: choices)))
    with (Js.array (Json.parse (Json.object choice)
                    :: map Json.parse choices)).
  cbn [Send.orThrow Send.first head default from_option id].
  rewrite get_parsed_object, Hmsg.
  cbn [Send.orThrow fmap option_fmap option_map default from_option id].
  rewrite get_parsed_object, Hco.
  cbn [Send.orThrow fmap option_fmap option_map default from_option id].
  change (Json.parse (Json.str answer)) with (Js.str answer).
  rewrite or_string. unfold shownTokens.
  assert (Husage :
    Js.optGet (default Js.undefined
                 (Json.parse <$> lastMember (js "usage") members))
              (js "total_tokens")
    = default Js.undefined
        (Json.parse <$>
         match lastMember (js "usage") members with
         | Some (Json.object usage) => lastMember (js "total_tokens") usage
         | _ => None
         end)).
  { destruct (lastMember (js "usage") members) as [[| | | | |usage]|];
      try reflexivity.
    cbn [fmap option_fmap option_map default from_option id].
    apply optGet_parsed_object. }
  rewrite Husage. reflexivity.
Qed.

(** A count that is a number is rendered as a number, 0 standing in for a
    falsy one; no count is rendered as 0. *)
Lemma shownTokens_number numberToString n :
  shownTokens numberToString (Some (Json.number n))
  = Some (numberToString
            (if Js.isZero n || Js.isNaN n then Js.ofInt 0 else n)).
Proof.
  unfold shownTokens, Js.or. cbn.
  destruct (Js.isZero n || Js.isNaN n); reflexivity.
Qed.

Lemma shownTokens_none numberToString :
  shownTokens numberToString None = Some (numberToString (Js.ofInt 0)).
Proof. reflexivity. Qed.

End Parsed.

(** X15: when the endpoint answers a send with a 2xx response whose JSON
    body has a first choice with a string content, the reply is that
    content trimmed, four spaces, and the body's [usage.total_tokens] in
    square brackets, as the template literal renders it: a number as the
    platform prints it, 0 for a count that is missing or falsy.  When the
    count has no primitive form (an object with a member named "toString",
    also inside an array) the template literal throws and the reply is the
    error reply for the engine's [TypeError]. *)
Theorem reply_of_completion
        fetch numberToString typeError key model parts now
        response j answer tokens :
  fetch (sendRequest key model parts) = Fulfilled response →
  ok response = true →
  r_json response = Fulfilled j →
  completionWith answer tokens j →
  (∀ count, shownTokens numberToString tokens = Some count →
     Send.reply fetch numberToString typeError key model parts now
     = {| m_id := JsString.ofZ (now + 1);
          m_role := assistant;
          m_content :=
            content_string
              (JsText.trim answer ++ js "    [" ++ count ++ js "]") |}) ∧
  (shownTokens numberToString tokens = None →
     Send.reply fetch numberToString typeError key model parts now
     = ChatScreen.errorReply model now (typeError Send.text_of_tokens)) ∧
  (tokens = None →
     shownTokens numberToString tokens
     = Some (numberToString (Js.ofInt 0))) ∧
  (∀ n, tokens = Some (Json.number n) →
     shownTokens numberToString tokens
     = Some (numberToString
               (if Js.isZero n || Js.isNaN n then Js.ofInt 0 else n))).
Proof.
  intros Hf Hok Hj Hc.
  assert (Hreply :
    Send.reply fetch numberToString typeError key model parts now
    = match shownTokens numberToString tokens with
      | Some count =>
          {| m_id := JsString.ofZ (now + 1);
             m_role := assistant;
             m_content :=
               content_string
                 (JsText.trim answer ++ js "    [" ++ count ++ js "]") |}
      | None =>
          ChatScreen.errorReply model now (typeError Send.text_of_tokens)
      end).
  { unfold Send.reply, OpenAI.chat_completions_create.
    unfold sendRequest in Hf. rewrite Hf, Hok, Hj. cbn [negb].
    rewrite (formattedAnswer_completionWith _ _ _ _ _ Hc).
    destruct (shownTokens numberToString tokens); reflexivity. }
  split; [|split; [|split]].
  - intros count Hcount. rewrite Hreply, Hcount. reflexivity.
  - intros Hnone. rewrite Hreply, Hnone. reflexivity.
  - intros ->. apply shownTokens_none.
  - intros n ->. apply shownTokens_number.
Qed.

Lemma reply_of_completion_witness :
  Send.reply (alwaysResponds completionResponse) integersOnly
             sampleTypeError (js "sk-test") (js "gpt-4o-mini")
             (Send.contentParts sampleScreen) 1700000002000
  = {| m_id := js "1700000002001";
       m_role := assistant;
       m_content := content_string (js "21 - B    [905]") |}.
Proof.
  destruct (reply_of_completion
              (alwaysResponds completionResponse) integersOnly sampleTypeError
              (js "sk-test") (js "gpt-4o-mini") (Send.contentParts sampleScreen)
              1700000002000 completionResponse sampleCompletion
              (js "21 - B ") (Some (Json.number (Js.ofInt 905))))
    as (H & _).
  - reflexivity.
  - reflexivity.
  - reflexivity.
  - unfold completionWith. eexists _, _, _, _.
    split; [reflexivity|]. repeat split.
  - apply (H (js "905")). reflexivity.
Defined.

(** ** Further properties of the completion client *)

(** X16: [chat.completions.create] is fulfilled exactly when the request
    is answered by a 2xx response with a JSON body, and then with that body
    as parsed: nothing in the body, not even an [error] member, turns a 2xx
    answer into a failure. *)
Theorem create_fulfilled_iff
        fetch numberToString toStringError this options completion :
  OpenAI.chat_completions_create fetch numberToString toStringError
    this options = Fulfilled completion
  ↔ ∃ response j,
      fetch (OpenAI.completionsRequest this options) = Fulfilled response ∧
      ok response = true ∧
      r_json response = Fulfilled j ∧
      completion = Json.parse j.
Proof.
  unfold OpenAI.chat_completions_create. split.
  - destruct (fetch _) as [response|reason]; [|discriminate].
    destruct (ok response) eqn:Hok; cbn [negb];
      [|destruct (Js.toString _ _); discriminate].
    destruct (r_json response) as [j|reason] eqn:Hj; [|discriminate].
    intros [= <-]. exists response, j. auto.
  - intros (response & j & -> & -> & Hj & ->). cbn [negb].
    rewrite Hj. reflexivity.
Qed.

Section Fallback.

Lemma create_fallback fetch numberToString toStringError this options response :
  fetch (OpenAI.completionsRequest this options) = Fulfilled response →
  ok response = false →
  ((∃ reason, r_json response = Rejected reason) ∨
   (∃ members, r_json response = Fulfilled (Json.object members) ∧
               lastMember (js "error") members = None)) →
  OpenAI.chat_completions_create fetch numberToString toStringError
    this options =
    Rejected
      (newError (js "HTTP " ++ JsString.ofZ (Z.of_N (status response))
                 ++ js ": " ++ statusText response)).
Proof.
  intros Hf Hok Hbody.
  unfold OpenAI.chat_completions_create. rewrite Hf, Hok. cbn [negb].
  unfold OpenAI.errorMessage, OpenAI.errorData.
  destruct Hbody as [[reason ->]|(members & -> & He)].
  - reflexivity.
  - rewrite optGet_parsed_object, He. reflexivity.
Qed.

End Fallback.

(** X17: how [chat.completions.create] fails.  A transport failure is
    passed on as it is.  A response that is not 2xx is turned into an error
    whose message is the [error.message] string of the JSON body when there
    is a non-empty one, and "HTTP <status>: <statusText>" when the body is
    not JSON or is an object without an [error] member.  A 2xx response
    whose body is not JSON fails with the parser's error. *)
Theorem create_rejections fetch numberToString toStringError this options :
  let request := OpenAI.completionsRequest this options in
  let result :=
    OpenAI.chat_completions_create fetch numberToString toStringError
      this options in
  (∀ reason, fetch request = Rejected reason → result = Rejected reason) ∧
  (∀ response members inner s,
     fetch request = Fulfilled response → ok response = false →
     r_json response = Fulfilled (Json.object members) →
     lastMember (js "error") members = Some (Json.object inner) →
     lastMember (js "message") inner = Some (Json.str s) →
     s ≠ [] →
     result = Rejected (newError s)) ∧
  (∀ response,
     fetch request = Fulfilled response → ok response = false →
     ((∃ reason, r_json response = Rejected reason) ∨
      (∃ members, r_json response = Fulfilled (Json.object members) ∧
                  lastMember (js "error") members = None)) →
     result =
       Rejected
         (newError (js "HTTP " ++ JsString.ofZ (Z.of_N (status response))
                    ++ js ": " ++ statusText response))) ∧
  (∀ response reason,
     fetch request = Fulfilled response → ok response = true →
     r_json response = Rejected reason →
     result = Rejected reason).
Proof.
  intros request result. subst request result.
  unfold OpenAI.chat_completions_create.
  split; [|split; [|split]].
  - intros reason ->. reflexivity.
  - intros response members inner s -> -> Hj He Hm Hs. cbn [negb].
    unfold OpenAI.errorMessage, OpenAI.errorData. rewrite Hj.
    rewrite optGet_parsed_object, He.
    cbn [fmap option_fmap option_map default from_option id].
    rewrite optGet_parsed_object, Hm.
    cbn [fmap option_fmap option_map default from_option id Json.parse].
    unfold Js.or. cbn [Js.truthy].
    rewrite bool_decide_eq_false_2 by exact Hs. reflexivity.
  - intros response Hf Hok Hbody. fold (negb (ok response)).
    apply (create_fallback fetch numberToString toStringError this options
             response); assumption.
  - intros response reason -> -> ->. reflexivity.
Qed.

Lemma create_rejections_witness :
  OpenAI.chat_completions_create (alwaysResponds bareUnauthorizedResponse)
    integersOnly sampleToStringError (OpenAI.createOpenAI (js "sk-test"))
    screenOptions
  = Rejected (newError (js "HTTP 401: Unauthorized")).
Proof.
  destruct (create_rejections (alwaysResponds bareUnauthorizedResponse)
              integersOnly sampleToStringError
              (OpenAI.createOpenAI (js "sk-test")) screenOptions)
    as (_ & _ & H & _).
  apply (H bareUnauthorizedResponse); [reflexivity|reflexivity|].
  left. eexists. reflexivity.
Defined.

(** X18: a 401 answer to a send whose body is not JSON, or is an object
    without an [error] member, is always reported as an invalid key,
    whatever its status text. *)
Theorem bare_401_reported_as_invalid_key
        fetch numberToString typeError key model parts now response :
  fetch (sendRequest key model parts) = Fulfilled response →
  status response = 401%N →
  ((∃ reason, r_json response = Rejected reason) ∨
   (∃ members, r_json response = Fulfilled (Json.object members) ∧
               lastMember (js "error") members = None)) →
  Send.reply fetch numberToString typeError key model parts now
  = {| m_id := JsString.ofZ (now + 1);
       m_role := assistant;
       m_content :=
         content_string
           (ChatScreen.warningSign ++ js " Error: "
            ++ js "Invalid API key. Please check your API key and try again.")
    |}.
Proof.
  intros Hf Hs Hbody.
  assert (Hok : ok response = false) by (unfold ok; rewrite Hs; reflexivity).
  unfold Send.reply.
  rewrite (create_fallback fetch numberToString _ _ _ response Hf Hok Hbody).
  rewrite Hs. reflexivity.
Qed.

Lemma bare_401_reported_as_invalid_key_witness :
  m_content
    (Send.reply (alwaysResponds bareUnauthorizedResponse) integersOnly
                sampleTypeError (js "sk-test") (js "gpt-4o-mini")
                (Send.contentParts sampleScreen) 1700000002000)
  = content_string
      (ChatScreen.warningSign
       ++ js " Error: Invalid API key. Please check your API key and try again.").
Proof.
  rewrite (bare_401_reported_as_invalid_key
             (alwaysResponds bareUnauthorizedResponse) integersOnly
             sampleTypeError (js "sk-test") (js "gpt-4o-mini")
             (Send.contentParts sampleScreen) 1700000002000
             bareUnauthorizedResponse eq_refl eq_refl).
  - reflexivity.
  - left. eexists. reflexivity.
Defined.

(** ** Properties of the credential and of the login screen *)

Section Credential.

Lemma validateApiKey_true_iff fetch key :
  OpenAI.validateApiKey fetch key = Fulfilled true ↔ endpointAccepts fetch key.
Proof.
  unfold OpenAI.validateApiKey, OpenAI.models_list, endpointAccepts. split.
  - destruct (fetch _) as [response|reason]; [|discriminate].
    destruct (ok response) eqn:Hok; [|discriminate]. cbn [negb].
    destruct (r_json response) as [j|reason] eqn:Hj; [|discriminate].
    intros _. exists response, j. auto.
  - intros (response & j & -> & -> & ->). reflexivity.
Qed.

Lemma validateApiKey_bool fetch key :
  ∃ b, OpenAI.validateApiKey fetch key = Fulfilled b.
Proof.
  unfold OpenAI.validateApiKey.
  destruct (OpenAI.models_list _ _); eauto.
Qed.

Lemma setApiKey_refused e key st device :
  Auth.setApiKey (Some e) key st device = Rejected e.
Proof. unfold Auth.setApiKey. destruct key as [[|c k]|]; reflexivity. Qed.

End Credential.

(** X19: [setApiKey] on a device that takes the write leaves the state
    with the key it was given and the device with that key stored, or with
    no stored key when it was given null or the empty string, every other
    entry of the device untouched; the next start of the app then loads
    the key as stored.  On a device that refuses the write it fails with
    the device's error. *)
Theorem setApiKey_persists key st device :
  (∃ st' device',
     Auth.setApiKey None key st device = Fulfilled (st', device') ∧
     Auth.apiKey st' = key ∧
     Auth.isLoading st' = Auth.isLoading st ∧
     AsyncStorage.getItem Auth.storageKey device' = storedAs key ∧
     (∀ k, k ≠ Auth.storageKey →
        AsyncStorage.getItem k device' = AsyncStorage.getItem k device) ∧
     Auth.loaded device' Auth.initial
       = {| Auth.apiKey := storedAs key; Auth.isLoading := false |}) ∧
  (∀ e, Auth.setApiKey (Some e) key st device = Rejected e).
Proof.
  split.
  - unfold Auth.setApiKey, Auth.loaded, AsyncStorage.getItem,
           AsyncStorage.setItem, AsyncStorage.removeItem, AsyncStorage.t.
    destruct key as [[|c k]|]; eexists _, _;
      (split; [reflexivity|]); cbn [Auth.apiKey Auth.isLoading storedAs];
      rewrite ?lookup_insert_eq, ?lookup_delete_eq;
      repeat split; intros k' Hk';
      rewrite ?lookup_insert_ne, ?lookup_delete_ne by congruence;
      reflexivity.
  - intros e. apply setApiKey_refused.
Qed.

(** X20: [handleLogin] stores a key only when the typed text, trimmed,
    starts with "sk-", the models endpoint accepts it and the device takes
    the write.  Then no alert is shown, the state and the device hold the
    trimmed key, which the next start of the app loads and the chat screen
    takes as a key.  In every other case an alert is shown and neither the
    state nor the device changes. *)
Theorem login_stores_only_accepted_key fetch fault typed st device :
  let key := JsText.trim typed in
  let out := Login.handleLogin fetch fault typed st device in
  let accepted :=
    JsString.startsWith key (js "sk-") = true ∧
    endpointAccepts fetch key ∧ fault = None in
  (accepted →
   Login.shown out = None ∧
   Auth.apiKey (Login.auth out) = Some key ∧
   AsyncStorage.getItem Auth.storageKey (Login.store out) = Some key ∧
   (∀ k, k ≠ Auth.storageKey →
      AsyncStorage.getItem k (Login.store out) = AsyncStorage.getItem k device) ∧
   Auth.apiKey (Auth.loaded (Login.store out) Auth.initial) = Some key ∧
   Send.noKey (Some key) = false) ∧
  (¬ accepted →
   is_Some (Login.shown out) ∧ Login.auth out = st ∧ Login.store out = device).
Proof.
  intros key out accepted. subst out accepted. unfold Login.handleLogin.
  fold key. split.
  - intros (Hsk & Hacc & ->). rewrite Hsk. cbn [negb].
    apply validateApiKey_true_iff in Hacc. rewrite Hacc.
    destruct key as [|c k] eqn:Hkey; [discriminate Hsk|].
    unfold Auth.setApiKey, AsyncStorage.setItem, Auth.loaded,
           AsyncStorage.getItem, AsyncStorage.t.
    cbn [Login.shown Login.auth Login.store Auth.apiKey].
    rewrite lookup_insert_eq.
    repeat split.
    intros k' Hk'. rewrite lookup_insert_ne by congruence. reflexivity.
  - intros Hnot.
    destruct (JsString.startsWith key (js "sk-")) eqn:Hsk; cbn [negb];
      [|split; [eexists; reflexivity|split; reflexivity]].
    destruct (validateApiKey_bool fetch key) as [[|] Hv]; rewrite Hv;
      [|split; [eexists; reflexivity|split; reflexivity]].
    apply validateApiKey_true_iff in Hv.
    destruct fault as [e|]; [|exfalso; apply Hnot; auto].
    rewrite setApiKey_refused.
    split; [eexists; reflexivity|split; reflexivity].
Qed.

Lemma login_stores_only_accepted_key_witness :
  let out :=
    Login.handleLogin (alwaysResponds modelsResponse) None
                      (js "  sk-test-key ") Auth.initial sampleDevice in
  Login.shown out = None ∧
  AsyncStorage.getItem Auth.storageKey (Login.store out)
    = Some (js "sk-test-key") ∧
  AsyncStorage.getItem (js "theme") (Login.store out) = Some (js "dark").
Proof.
  intros out. subst out.
  destruct (login_stores_only_accepted_key
              (alwaysResponds modelsResponse) None (js "  sk-test-key ")
              Auth.initial sampleDevice) as [Hacc _].
  destruct Hacc as (Hshown & _ & Hkey & Hother & _).
  - split; [reflexivity|]. split; [|reflexivity].
    exists modelsResponse. eexists. repeat split.
  - split; [exact Hshown|]. split; [exact Hkey|].
    rewrite (Hother (js "theme")); [reflexivity|].
    vm_compute. discriminate.
Defined.

(** X21: what [handleLogin] tells the user.  A text that, trimmed, does
    not start with "sk-" is turned down whatever the network would say.
    When the listing request fails in transport or is answered by a
    response that is not 2xx, the alert is the one for a key that is not
    valid.  The "Connection Error" alert is shown only when the endpoint
    accepted the key and the device refused to store it. *)
Theorem login_alerts fetch fault typed st device :
  let key := JsText.trim typed in
  let request := OpenAI.modelsRequest (OpenAI.createOpenAI key) in
  let out := Login.handleLogin fetch fault typed st device in
  (JsString.startsWith key (js "sk-") = false →
   Login.shown out = Some Login.mustStartWithSk) ∧
  (JsString.startsWith key (js "sk-") = true →
   ((∃ reason, fetch request = Rejected reason) ∨
    (∃ response, fetch request = Fulfilled response ∧ ok response = false)) →
   Login.shown out = Some Login.notValid) ∧
  (Login.shown out = Some Login.connectionError →
   JsString.startsWith key (js "sk-") = true ∧
   endpointAccepts fetch key ∧ fault ≠ None).
Proof.
  intros key request out. subst out request. unfold Login.handleLogin.
  fold key. split; [|split].
  - intros ->. reflexivity.
  - intros -> Hfail. cbn [negb].
    unfold OpenAI.validateApiKey, OpenAI.models_list.
    destruct Hfail as [[reason ->]|(response & -> & ->)]; reflexivity.
  - destruct (JsString.startsWith key (js "sk-")) eqn:Hsk; cbn [negb].
    + destruct (validateApiKey_bool fetch key) as [[|] Hv]; rewrite Hv.
      * apply validateApiKey_true_iff in Hv.
        destruct fault as [e|].
        -- rewrite setApiKey_refused. intros _. repeat split; auto.
        -- destruct key as [|c k]; [discriminate Hsk|].
           cbn. discriminate.
      * cbn. intros H. exfalso. revert H. vm_compute. discriminate.
    + cbn. intros H. exfalso. revert H. vm_compute. discriminate.
Qed.

Lemma login_alerts_witness :
  Login.shown
    (Login.handleLogin (λ _, Rejected (newError (js "Network request failed")))
                       None (js "sk-test-key") Auth.initial sampleDevice)
  = Some Login.notValid.
Proof.
  destruct (login_alerts
              (λ _, Rejected (newError (js "Network request failed")))
              None (js "sk-test-key") Auth.initial sampleDevice)
    as (_ & H & _).
  apply H; [reflexivity|]. left. eexists. reflexivity.
Defined.
